(** * Advisor voting and turn orchestration of the Monopoly agent script

    A shallow embedding of [advisors.py] and of the module-level script of
    [monopoly.py]: the advisor vote classifier, the pre-decision turn loop,
    the proposal request, the advisor voting loop and the vote aggregation.

    The game engine ([monosim]) and the decision collaborator (the
    structured LLM) are external to the repository; they enter the model
    as section variables. *)

From Stdlib Require Import List NArith Arith Bool Lia String Ascii Permutation.
Import ListNotations.

Set Implicit Arguments.

(** ** Python strings *)

(** A Python [str] is a sequence of Unicode code points. *)
Definition str := list N.

(** A literal of the source, written as a Rocq string of ASCII characters. *)
Fixpoint lit (s : string) : str :=
  match s with
  | EmptyString => []
  | String c s' => N_of_ascii c :: lit s'
  end.

Module PyStr.

(** ['A'..'Z'] are mapped to ['a'..'z'], every other ASCII code point to
    itself. *)
Definition ascii_lower (c : N) : N :=
  if ((65 <=? c) && (c <=? 90))%N then (c + 32)%N else c.

Section Lower.
(** The lowercase mapping of the interpreter's Unicode database for the
    code points outside ASCII.  It receives the whole string and the
    position, because the mapping of capital sigma depends on its
    context, and it may produce several code points. *)
Variable lower_ucs4 : str -> nat -> N -> str.

Fixpoint lower_from (s : str) (i : nat) (rest : str) : str :=
  match rest with
  | [] => []
  | c :: rest' =>
      (if (c <? 128)%N then [ascii_lower c] else lower_ucs4 s i c)
        ++ lower_from s (S i) rest'
  end.

(** [s.lower()] *)
Definition lower (s : str) : str := lower_from s 0 s.
End Lower.

(** [s.startswith(p)] *)
Fixpoint startswith (p s : str) : bool :=
  match p, s with
  | [], _ => true
  | _ :: _, [] => false
  | c :: p', d :: s' => (c =? d)%N && startswith p' s'
  end.

(** [needle in hay]: some position of [hay] starts with [needle]. *)
Fixpoint contains (needle hay : str) : bool :=
  startswith needle hay
  || match hay with
     | [] => false
     | _ :: hay' => contains needle hay'
     end.

(** The meaning of the substring test, as a proposition. *)
Definition substring (needle hay : str) : Prop :=
  exists pre suf, hay = pre ++ needle ++ suf.

Definition is_ascii (s : str) : Prop := Forall (fun c => (c < 128)%N) s.

End PyStr.

(** [l.count(x)] on a list of booleans. *)
Fixpoint list_count (x : bool) (l : list bool) : nat :=
  match l with
  | [] => 0
  | y :: l' => (if Bool.eqb y x then 1 else 0) + list_count x l'
  end.

(** ** advisors.py *)

Record Advisor := { name : str; strategy : str }.

(** The structured response of the decision collaborator
    ([class Output(BaseModel)] of monopoly.py). *)
Record Output := { reasoning : str; decision : str }.

Section Advisors.
Variable lower_ucs4 : str -> nat -> N -> str.

Definition parse_advisor_response (response : Output) : bool :=
  let decision := PyStr.lower lower_ucs4 (decision response) in
  if PyStr.contains (lit "approve") decision
     || PyStr.contains (lit "accept") decision
     || PyStr.contains (lit "yes") decision
  then true
  else false.
End Advisors.

(** The affirmative tokens of [parse_advisor_response]. *)
Definition affirmative_tokens : list str :=
  [lit "approve"; lit "accept"; lit "yes"].

(** A text holds one of the affirmative tokens as a substring. *)
Definition has_affirmative_token (text : str) : Prop :=
  exists tok, In tok affirmative_tokens /\ PyStr.substring tok text.

(** A response with a given decision text. *)
Definition decides (text : string) : Output :=
  {| reasoning := []; decision := lit text |}.

(** ** monopoly.py: the script *)

Inductive Player := player1 | player2.

(** A call on a player of the game engine. *)
Inductive EngineCall :=
| HasLost (player : Player)
| Play (player : Player).

Definition list_players : list Player := [player1; player2].

(** The calls of a round in which the loop test passes: the two tests,
    then the two turns. *)
Definition full_round : list EngineCall :=
  [HasLost player1; HasLost player2; Play player1; Play player2].

(** [stop_at_round = 5] *)
Definition stop_at_round : nat := 5.

Definition agent_role : str := lit "Player 1".

Definition advisor_A : Advisor :=
  {| name := lit "Advisor A"; strategy := lit "Aggressive" |}.
Definition advisor_B : Advisor :=
  {| name := lit "Advisor B"; strategy := lit "Conservative" |}.
Definition advisor_C : Advisor :=
  {| name := lit "Advisor C"; strategy := lit "Opportunistic" |}.

Definition advisors : list Advisor := [advisor_A; advisor_B; advisor_C].

(** [votes.count(True) > votes.count(False)] *)
Definition proposal_accepted (votes : list bool) : bool :=
  list_count false votes <? list_count true votes.

Definition verdict_line (votes : list bool) : str :=
  if proposal_accepted votes
  then lit "Proposal accepted by advisors."
  else lit "Proposal rejected by advisors.".

(** The line printed after an advisor's vote. *)
Definition vote_line (advisor : Advisor) (vote : bool) : str :=
  name advisor ++ lit " (" ++ strategy advisor ++ lit ") votes to "
    ++ (if vote then lit "approve" else lit "reject")
    ++ lit " the proposal.".

(** The lines printed for a proposal. *)
Definition proposal_lines (proposal : Output) : list str :=
  [lit "Player proposal:"; decision proposal;
   lit "Player reasoning:"; reasoning proposal;
   lit "Turning to advisors for a vote..."].

(** An exception, by the name of its class. *)
Definition Exn := string.
Bind Scope string_scope with Exn.

Section Script.
Variable lower_ucs4 : str -> nat -> N -> str.

(** The game engine: the state shared by the bank, the board and the two
    players, [player.play()] and [player.has_lost()]. *)
Variable Game : Type.
Variable play : Player -> Game -> Game.
Variable has_lost : Player -> Game -> bool.

(** What is sent to the decision collaborator.  The prompt templates are
    constants and rendering only reads the game (the bank, the board, the
    roads, the properties and, for the proposal, the state of each
    player), so a prompt is given by the values formatted into it and the
    game it was rendered from. *)
Inductive Prompt :=
| ProposalPrompt (role : str) (game : Game)
| AdvisorPrompt (advisor : Advisor) (game : Game) (proposed_action : str).

(** What a call of [structured_llm.invoke] does: it returns a structured
    response, raises, or never returns. *)
Inductive Reply :=
| Returns (o : Output)
| Raises (e : Exn)
| Hangs.

(** The decision collaborator: its reply to the [n]-th call (from 0), and
    the counters of the OpenAI callback after a history of calls. *)
Variable invoke_reply : nat -> Prompt -> Reply.
Variable cb_total_tokens : list Prompt -> str.
Variable cb_total_cost : list Prompt -> str.

(** The state of the run: the game, and what the script has done so far
    (oldest first): the calls on the players, the prompts sent to the
    collaborator and the arguments of the [print] calls. *)
Record World := {
  game : Game;
  engine_calls : list EngineCall;
  invocations : list Prompt;
  stdout : list str
}.

Inductive Result (A : Type) :=
| Done (a : A) (w : World)
| Raised (e : Exn) (w : World)
| Blocked (w : World).

Arguments Done {A} a w.
Arguments Raised {A} e w.
Arguments Blocked {A} w.

Definition M (A : Type) := World -> Result A.

Definition ret {A} (a : A) : M A := fun w => Done a w.

Definition bind {A B} (m : M A) (k : A -> M B) : M B :=
  fun w =>
    match m w with
    | Done a w' => k a w'
    | Raised e w' => Raised e w'
    | Blocked w' => Blocked w'
    end.

Notation "x <- m ;; k" := (bind m (fun x => k))
  (at level 61, m at next level, right associativity).
Notation "m ;; k" := (bind m (fun _ => k))
  (at level 61, right associativity).

Definition world_of {A} (r : Result A) : World :=
  match r with
  | Done _ w => w
  | Raised _ w => w
  | Blocked w => w
  end.

(** The engine has moved to [g'] through the calls [cs]. *)
Definition engine_step (cs : list EngineCall) (g' : Game) (w : World) : World :=
  {| game := g'; engine_calls := engine_calls w ++ cs;
     invocations := invocations w; stdout := stdout w |}.

(** The prompts [prompts] have been sent and the lines [lines] printed. *)
Definition io_step (prompts : list Prompt) (lines : list str) (w : World)
    : World :=
  {| game := game w; engine_calls := engine_calls w;
     invocations := invocations w ++ prompts; stdout := stdout w ++ lines |}.

Definition sent (prompt : Prompt) (w : World) : World := io_step [prompt] [] w.

Definition printed (lines : list str) (w : World) : World := io_step [] lines w.

Definition read_game : M Game := fun w => Done (game w) w.

(** The calls that the OpenAI callback has counted. *)
Definition read_invocations : M (list Prompt) :=
  fun w => Done (invocations w) w.

Definition print (line : str) : M unit :=
  fun w => Done tt (printed [line] w).

(** [player.play()] *)
Definition player_play (player : Player) : M unit :=
  fun w => Done tt (engine_step [Play player] (play player (game w)) w).

(** [player.has_lost()] *)
Definition player_has_lost (player : Player) : M bool :=
  fun w => Done (has_lost player (game w))
             (engine_step [HasLost player] (game w) w).

(** [structured_llm.invoke(prompt)] *)
Definition structured_llm_invoke (prompt : Prompt) : M Output :=
  fun w =>
    match invoke_reply (List.length (invocations w)) prompt with
    | Returns o => Done o (sent prompt w)
    | Raises e => Raised e (sent prompt w)
    | Hangs => Blocked (sent prompt w)
    end.

(** [for player in list_players: player.play()] *)
Fixpoint play_round (players : list Player) : M unit :=
  match players with
  | [] => ret tt
  | player :: players' => player_play player ;; play_round players'
  end.

(** The test of the [while]; [and] evaluates its right operand only when
    the left one is true. *)
Definition loop_test (idx_count : nat) : M bool :=
  lost1 <- player_has_lost player1 ;;
  if negb lost1
  then lost2 <- player_has_lost player2 ;;
       if negb lost2 then ret (idx_count <? stop_at_round) else ret false
  else ret false.

(** The [while] loop, by fuel: without fuel left the loop has not returned.
    The script runs it on [S stop_at_round], which is always enough. *)
Fixpoint turn_loop (fuel : nat) (idx_count : nat) : M nat :=
  match fuel with
  | 0 => fun w => Blocked w
  | S fuel' =>
      continue <- loop_test idx_count ;;
      if continue
      then play_round list_players ;; turn_loop fuel' (idx_count + 1)
      else ret idx_count
  end.

(** The primary proposal and the lines printed for it. *)
Definition request_proposal : M Output :=
  g <- read_game ;;
  proposal <- structured_llm_invoke (ProposalPrompt agent_role g) ;;
  let proposal_reasoning := reasoning proposal in
  let proposal_decision := decision proposal in
  print (lit "Player proposal:") ;;
  print proposal_decision ;;
  print (lit "Player reasoning:") ;;
  print proposal_reasoning ;;
  print (lit "Turning to advisors for a vote...") ;;
  ret proposal.

(** [for advisor in advisors: ...], with the list [votes] built so far. *)
Fixpoint advisor_loop (advs : list Advisor) (proposal_decision : str)
    (votes : list bool) : M (list bool) :=
  match advs with
  | [] => ret votes
  | advisor :: advs' =>
      g <- read_game ;;
      advisor_response <-
        structured_llm_invoke (AdvisorPrompt advisor g proposal_decision) ;;
      let vote := parse_advisor_response lower_ucs4 advisor_response in
      let votes := votes ++ [vote] in
      print (vote_line advisor vote) ;;
      advisor_loop advs' proposal_decision votes
  end.

(** The [if] on the votes and the two lines of the usage counters. *)
Definition announce (votes : list bool) : M unit :=
  print (verdict_line votes) ;;
  h <- read_invocations ;;
  print (lit "Total Tokens Used: " ++ cb_total_tokens h) ;;
  print (lit "Total Cost (USD): $" ++ cb_total_cost h).

(** One decision cycle over a panel of advisors. *)
Definition decision_cycle (advs : list Advisor) : M (list bool) :=
  proposal <- request_proposal ;;
  votes <- advisor_loop advs (decision proposal) [] ;;
  announce votes ;;
  ret votes.

(** The script, from [idx_count = 0] on; the votes are its result here,
    for the properties to speak of them. *)
Definition main : M (list bool) :=
  turn_loop (S stop_at_round) 0 ;;
  decision_cycle advisors.

(** The world in which the script starts, on the game of
    [initialize_game()]. *)
Definition start (g : Game) : World :=
  {| game := g; engine_calls := []; invocations := []; stdout := [] |}.

(** *** What the turn loop does, as functions of the game *)

(** The game after one round: every player of [list_players] has played. *)
Definition round_of (g : Game) : Game :=
  fold_left (fun g player => play player g) list_players g.

Definition after_rounds (k : nat) (g : Game) : Game :=
  Nat.iter k round_of g.

Definition nobody_lost (g : Game) : bool :=
  negb (has_lost player1 g) && negb (has_lost player2 g).

(** The calls of one evaluation of the loop test. *)
Definition test_calls (g : Game) : list EngineCall :=
  if has_lost player1 g then [HasLost player1]
  else [HasLost player1; HasLost player2].

(** The rounds played from [g] when [budget] rounds remain before
    [stop_at_round]. *)
Fixpoint rounds_played (budget : nat) (g : Game) : nat :=
  match budget with
  | 0 => 0
  | S budget' =>
      if nobody_lost g then S (rounds_played budget' (round_of g)) else 0
  end.

(** The engine calls of [n] rounds from [g] and of the test that ends the
    loop. *)
Fixpoint rounds_log (n : nat) (g : Game) : list EngineCall :=
  match n with
  | 0 => test_calls g
  | S n' =>
      test_calls g ++ map Play list_players ++ rounds_log n' (round_of g)
  end.

(** *** What the advisor loop does *)

Definition advisor_prompts (g : Game) (proposed_action : str)
    (advs : list Advisor) : list Prompt :=
  map (fun advisor => AdvisorPrompt advisor g proposed_action) advs.

Definition vote_lines (advs : list Advisor) (votes : list bool) : list str :=
  map (fun av => vote_line (fst av) (snd av)) (combine advs votes).

(** The evaluations of the advisors [advs], made from call [n] on, return
    the responses [responses]. *)
Fixpoint all_return (n : nat) (g : Game) (proposed_action : str)
    (advs : list Advisor) (responses : list Output) : Prop :=
  match advs, responses with
  | [], [] => True
  | advisor :: advs', response :: responses' =>
      invoke_reply n (AdvisorPrompt advisor g proposed_action)
      = Returns response
      /\ all_return (S n) g proposed_action advs' responses'
  | _, _ => False
  end.


(** The [play()] calls among the calls of a world. *)
Definition play_calls (w : World) : list Player :=
  flat_map (fun c => match c with Play p => [p] | HasLost _ => [] end)
    (engine_calls w).

End Script.

Arguments Done {Game A} a w.
Arguments Raised {Game A} e w.
Arguments Blocked {Game A} w.

(** ** What a run shows to its caller *)

Section Outcomes.
Variable Game : Type.
Variable A : Type.

(** The run has printed the rejecting verdict. *)
Definition rejects (r : Result Game A) : Prop :=
  In (lit "Proposal rejected by advisors.") (stdout (world_of r)).

(** The run has ended by an exception of class [e]. *)
Definition reports (e : Exn) (r : Result Game A) : Prop :=
  exists w, r = Raised e w.



(** The all-abstain law of the specification: a rejecting verdict, and an
    error of its own class. *)
Definition all_abstain_law (r : Result Game A) : Prop :=
  rejects r /\ reports "AllAdvisorsAbstainedError" r.


End Outcomes.

(** Every advisor evaluation raises. *)
Definition every_advisor_fails {Game : Type}
    (invoke_reply : nat -> Prompt Game -> Reply) : Prop :=
  forall n advisor g proposed_action,
    exists e, invoke_reply n (AdvisorPrompt advisor g proposed_action) = Raises e.

(** ** Engines and collaborators to run the script on *)

Module Scenario.

(** No code point outside ASCII changes under [lower]. *)
Definition plain_lower : str -> nat -> N -> str := fun _ _ c => [c].

(** A game that is the number of turns played so far. *)
Definition count_turn (player : Player) (g : nat) : nat := S g.

Definition nobody_loses (player : Player) (g : nat) : bool := false.

(** Player 1 is ruined by the first turn of the game, its own. *)
Definition first_turn_ruins (player : Player) (g : nat) : bool :=
  match player with
  | player1 => 1 <=? g
  | player2 => false
  end.

Definition usage_unknown : list (Prompt nat) -> str := fun _ => lit "?".

(** The proposal is returned; every advisor evaluation raises. *)
Definition advisors_fail (n : nat) (prompt : Prompt nat) : Reply :=
  match prompt with
  | ProposalPrompt _ _ => Returns (decides "yes, buy the property")
  | AdvisorPrompt _ _ _ => Raises "MalformedDecisionError"
  end.




(** Every call returns an approval. *)
Definition all_approve (n : nat) (prompt : Prompt nat) : Reply :=
  Returns (decides "approve").

(** The script on the counting game in which nobody loses. *)
Definition run (invoke_reply : nat -> Prompt nat -> Reply)
    : Result nat (list bool) :=
  main plain_lower count_turn nobody_loses invoke_reply
    usage_unknown usage_unknown (start 0).

End Scenario.

(** ** Prompt templates and their formatting *)

Module PyFormat.

(** What [template.format] gives on keyword arguments: the formatted
    text, or the exception it raises. *)
Inductive Formatting :=
| Formatted (s : str)
| KeyError (key : str)
| ValueError.

(** Keyword arguments, all of them strings here. *)
Definition kwargs := list (str * str).

Fixpoint str_eqb (a b : str) : bool :=
  match a, b with
  | [], [] => true
  | c :: a', d :: b' => (c =? d)%N && str_eqb a' b'
  | _, _ => false
  end.

Fixpoint get (key : str) (kw : kwargs) : option str :=
  match kw with
  | [] => None
  | (k, v) :: kw' => if str_eqb k key then Some v else get key kw'
  end.

(** An ASCII letter or an underscore. *)
Definition is_name_start (c : N) : bool :=
  ((65 <=? c) && (c <=? 90) || (97 <=? c) && (c <=? 122) || (c =? 95))%N.

(** The characters that open an attribute, an index, a format
    specification or a conversion in a replacement field. *)
Definition opens_field_syntax (c : N) : bool :=
  ((c =? 46) || (c =? 91) || (c =? 58) || (c =? 33))%N.

(** Literal text before what the rest of the template gives. *)
Definition emit (s : str) (rest : option Formatting) : option Formatting :=
  match rest with
  | Some (Formatted s') => Some (Formatted (s ++ s'))
  | other => other
  end.

(** The value of the field [{name}]: the keyword argument of that name.
    A name that does not start with a letter or an underscore (an empty or
    a numbered field) is outside of this model. *)
Definition field_value (name : str) (kw : kwargs) : option Formatting :=
  match name with
  | c :: _ =>
      if is_name_start c
      then match get name kw with
           | Some v => Some (Formatted v)
           | None => Some (KeyError name)
           end
      else None
  | [] => None
  end.

(** The scan of the template, from left to right.  [field] is [None] in
    literal text and holds the name read so far inside a replacement
    field.  [{{] and [}}] are the escapes of the braces, a lone [}], a
    [{] inside a field and an unclosed field raise [ValueError]; the scan
    stops at the first exception.  The result is [None] for the templates
    outside of this model: those with attributes, indices, conversions or
    format specifications. *)
Fixpoint format_from (kw : kwargs) (field : option str) (t : str)
    : option Formatting :=
  match t with
  | [] =>
      match field with
      | None => Some (Formatted [])
      | Some _ => Some ValueError
      end
  | c :: t' =>
      match field with
      | None =>
          if (c =? 123)%N then
            match t' with
            | [] => Some ValueError
            | c' :: t'' =>
                if (c' =? 123)%N then emit [123%N] (format_from kw None t'')
                else format_from kw (Some []) t'
            end
          else if (c =? 125)%N then
            match t' with
            | [] => Some ValueError
            | c' :: t'' =>
                if (c' =? 125)%N then emit [125%N] (format_from kw None t'')
                else Some ValueError
            end
          else emit [c] (format_from kw None t')
      | Some name =>
          if (c =? 125)%N then
            match field_value name kw with
            | Some (Formatted v) => emit v (format_from kw None t')
            | other => other
            end
          else if (c =? 123)%N then Some ValueError
          else if opens_field_syntax c then None
          else format_from kw (Some (name ++ [c])) t'
      end
  end.

(** [template.format], on the keyword arguments [kw] *)
Definition format (template : str) (kw : kwargs) : option Formatting :=
  format_from kw None template.

(** The text of the replacement field of a name. *)
Definition field (name : string) : str := 123%N :: lit name ++ [125%N].

Definition has_brace (s : str) : bool :=
  existsb (fun c => (c =? 123) || (c =? 125))%N s.

(** The texts around the replacement fields of a template that has no
    escaped brace, from the text [cur] read so far. *)
Fixpoint texts_from (in_field : bool) (cur : str) (t : str) : list str :=
  match t with
  | [] => [cur]
  | c :: t' =>
      if in_field
      then if (c =? 125)%N then texts_from false [] t'
           else texts_from true cur t'
      else if (c =? 123)%N then cur :: texts_from true [] t'
           else texts_from false (cur ++ [c]) t'
  end.

Definition texts (t : str) : list str := texts_from false [] t.

(** The names of the replacement fields of such a template, in order. *)
Fixpoint names_from (in_field : bool) (cur : str) (t : str) : list str :=
  match t with
  | [] => []
  | c :: t' =>
      if in_field
      then if (c =? 125)%N then cur :: names_from false [] t'
           else names_from true (cur ++ [c]) t'
      else if (c =? 123)%N then names_from true [] t'
           else names_from false [] t'
  end.

Definition names (t : str) : list str := names_from false [] t.

(** *** Substitution, to compare [format] with *)

(** A field name read as a keyword: it starts with a letter or an
    underscore and holds no brace, dot, bracket, colon or exclamation
    mark. *)
Definition plain_char (c : N) : bool :=
  negb (opens_field_syntax c) && negb (c =? 123)%N && negb (c =? 125)%N.

Definition simple_name (n : str) : bool :=
  match n with
  | c :: _ => is_name_start c && forallb plain_char n
  | [] => false
  end.

(** The template made of the texts [ts] with the fields of the names [ns]
    between them. *)
Fixpoint assemble (ts : list str) (ns : list str) : str :=
  match ts, ns with
  | t0 :: ts', n :: ns' => t0 ++ 123%N :: n ++ 125%N :: assemble ts' ns'
  | t0 :: _, [] => t0
  | [], _ => []
  end.

(** The same texts with the values of the keyword arguments between them;
    the first name that is not given raises [KeyError]. *)
Fixpoint fill (kw : kwargs) (ts : list str) (ns : list str) : Formatting :=
  match ts, ns with
  | t0 :: ts', n :: ns' =>
      match get n kw with
      | None => KeyError n
      | Some v =>
          match fill kw ts' ns' with
          | Formatted s => Formatted (t0 ++ v ++ s)
          | raised => raised
          end
      end
  | t0 :: _, [] => Formatted t0
  | [], _ => Formatted []
  end.

End PyFormat.

(** The lines of a text, joined by newlines. *)
Fixpoint join_lines (ls : list str) : str :=
  match ls with
  | [] => []
  | [l] => l
  | l :: ls' => l ++ 10%N :: join_lines ls'
  end.

(** [generate_advisor_prompt_template()] of advisors.py: the template,
    line by line. *)
Definition generate_advisor_prompt_template : str :=
  join_lines [
    [];
    lit "        You are {advisor_name}, an advisor with a {advisor_strategy} strategy in a Monopoly game. ";
    lit "        Your role is to evaluate the leader's proposed action and determine whether to approve or reject it.";
    [];
    lit "        Proposed Action:";
    lit "        {proposed_action}";
    [];
    lit "        Here is the current game state:";
    [];
    lit "        Bank:";
    lit "        {initial_bank}";
    [];
    lit "        Board:";
    lit "        {initial_board}";
    [];
    lit "        Roads:";
    lit "        {initial_roads}";
    [];
    lit "        Properties:";
    lit "        {initial_properties}";
    [];
    lit "        Your Objective:";
    lit "        Given the current state of the game and your strategy, evaluate the proposed action and decide ";
    lit "        if it aligns with your strategic goals.";
    [];
    lit "        Guidelines:";
    lit "        1. Analyze each component of the game state to understand the implications of the proposed action.";
    lit "        2. Consider immediate risks, potential opportunities, and the long-term impact of the action.";
    lit "        3. Evaluate the alignment of the action with your {advisor_strategy} strategy.";
    [];
    lit "        Instructions:";
    lit "        - Provide your reasoning step-by-step to justify your decision.";
    lit "        - Clearly state your final decision: approve or reject the proposed action.";
    lit "    " ].

(** [prompt_template()] of monopoly.py: the template, line by line. *)
Definition prompt_template : str :=
  join_lines [
    [];
    lit "        You are the {agent_role} in a Monopoly game. Here is the current game state:";
    [];
    lit "        Bank:";
    lit "        {initial_bank}";
    [];
    lit "        Board:";
    lit "        {initial_board}";
    [];
    lit "        Roads:";
    lit "        {initial_roads}";
    [];
    lit "        Properties:";
    lit "        {initial_properties}";
    [];
    lit "        Players:";
    lit "        Player 1 and Player 2";
    [];
    lit "        Your Objective:";
    lit "        Given the current state of the game, make strategic moves that maximizes your chances of winning.";
    [];
    lit "        Guidelines:";
    lit "        1. Analyze each component of the game state to understand your current situation.";
    lit "        2. Consider any immediate risks or opportunities from property ownership, player positions, or your current balance.";
    [];
    lit "        Instructions:";
    lit "        - Reason step-by-step to ensure your action aligns with the game" ++ [226; 8364; 8482]%N ++ lit "s rules and overall strategy.";
    lit "        - Provide your next move by determining if you should buy the property or not (yes or no)";
    lit "  " ].

(** The placeholders that the docstring of
    [generate_advisor_prompt_template] lists. *)
Definition advisor_placeholders : list str :=
  [lit "advisor_name"; lit "advisor_strategy"; lit "initial_bank";
   lit "initial_board"; lit "initial_roads"; lit "initial_properties";
   lit "proposed_action"].

(** The placeholders that the docstring of [prompt_template] lists. *)
Definition agent_placeholders : list str :=
  [lit "agent_role"; lit "initial_bank"; lit "initial_board";
   lit "initial_roads"; lit "initial_properties"].

(** [advisor_prompt.format(...)] of the advisor loop, on the texts of the
    bank, the board, the roads and the properties of the game. *)
Definition advisor_context (advisor : Advisor)
    (initial_bank initial_board initial_roads initial_properties : str)
    (proposed_action : str) : option PyFormat.Formatting :=
  PyFormat.format generate_advisor_prompt_template
    [(lit "advisor_name", name advisor);
     (lit "advisor_strategy", strategy advisor);
     (lit "initial_bank", initial_bank);
     (lit "initial_board", initial_board);
     (lit "initial_roads", initial_roads);
     (lit "initial_properties", initial_properties);
     (lit "proposed_action", proposed_action)].

(** [initial_template.format(...)] of the script. *)
Definition context
    (initial_bank initial_board initial_roads initial_properties : str)
    : option PyFormat.Formatting :=
  PyFormat.format prompt_template
    [(lit "agent_role", lit "Player 1");
     (lit "initial_bank", initial_bank);
     (lit "initial_board", initial_board);
     (lit "initial_roads", initial_roads);
     (lit "initial_properties", initial_properties)].

(** The f-string sent for the proposal, on the formatted context and the
    text of [get_current_state(list_players)]; a dollar sign of an
    f-string is literal text. *)
Definition proposal_prompt_text (context player_state : str) : str :=
  lit "$" ++ context ++ lit ". player_state is $" ++ player_state.

Unset Implicit Arguments.

(** * Properties *)

(** ** The substring test *)

Module PyStrFacts.
Import PyStr.

Lemma startswith_prefix (p s : str) :
  startswith p s = true <-> exists suf, s = p ++ suf.
Proof.
  revert s; induction p as [|c p IH]; intros s; simpl.
  - split; [intros _; now exists s | reflexivity].
  - destruct s as [|d s].
    + split; [discriminate | intros [suf H]; discriminate H].
    + rewrite andb_true_iff, N.eqb_eq, IH. split.
      * intros [-> [suf ->]]. now exists suf.
      * intros [suf H]. injection H as -> ->. split; [reflexivity | now exists suf].
Qed.

Lemma contains_substring (needle hay : str) :
  contains needle hay = true <-> substring needle hay.
Proof.
  unfold substring. induction hay as [|d hay IH].
  - simpl. rewrite orb_false_r, startswith_prefix. split.
    + intros [suf H]. now exists [], suf.
    + intros [pre [suf H]]. destruct pre; [now exists suf | discriminate H].
  - cbn [contains]. rewrite orb_true_iff, startswith_prefix, IH. split.
    + intros [[suf H] | [pre [suf H]]].
      * now exists [], suf.
      * exists (d :: pre), suf. simpl. now rewrite H.
    + intros [[|c pre] [suf H]].
      * left. now exists suf.
      * right. injection H as _ H. now exists pre, suf.
Qed.

Section LowerFacts.
Variable lower_ucs4 : str -> nat -> N -> str.

Lemma lower_from_app (s : str) (i : nat) (a b : str) :
  lower_from lower_ucs4 s i (a ++ b)
  = lower_from lower_ucs4 s i a
      ++ lower_from lower_ucs4 s (i + List.length a) b.
Proof.
  revert i; induction a as [|c a IH]; intros i; simpl.
  - now rewrite Nat.add_0_r.
  - rewrite IH, <- app_assoc. now rewrite Nat.add_succ_r.
Qed.

Lemma lower_from_ascii (s : str) (i : nat) (a : str) :
  is_ascii a -> lower_from lower_ucs4 s i a = map ascii_lower a.
Proof.
  intros H; revert i; induction H as [|c a Hc _ IH]; intros i; simpl.
  - reflexivity.
  - apply N.ltb_lt in Hc. now rewrite Hc, IH.
Qed.

(** An ASCII stretch of a text is lowered on its own, whatever is around
    it. *)
Lemma lower_around_ascii (pre mid suf : str) :
  is_ascii mid ->
  exists pre' suf',
    lower lower_ucs4 (pre ++ mid ++ suf) = pre' ++ map ascii_lower mid ++ suf'.
Proof.
  intros H. unfold lower.
  rewrite lower_from_app, lower_from_app, (lower_from_ascii _ _ _ H).
  eauto.
Qed.
End LowerFacts.

End PyStrFacts.

(** ** The vote classifier *)

Section Classifier.
Variable lower_ucs4 : str -> nat -> N -> str.

Local Abbreviation parse := (parse_advisor_response lower_ucs4).
Local Abbreviation lowered r := (PyStr.lower lower_ucs4 (decision r)).

Lemma parse_true_iff (response : Output) :
  parse response = true <-> has_affirmative_token (lowered response).
Proof.
  unfold parse_advisor_response, has_affirmative_token, affirmative_tokens.
  cbv zeta.
  destruct (PyStr.contains (lit "approve") (lowered response)) eqn:E1;
  destruct (PyStr.contains (lit "accept") (lowered response)) eqn:E2;
  destruct (PyStr.contains (lit "yes") (lowered response)) eqn:E3;
  cbn [orb];
  try (split; [intros _ | reflexivity]);
  try (eexists; split;
       [| apply PyStrFacts.contains_substring; eassumption];
       simpl; tauto).
  split; [discriminate |].
  intros [tok [[<- | [<- | [<- | []]]] H]];
    apply PyStrFacts.contains_substring in H; congruence.
Qed.

Lemma parse_false_iff (response : Output) :
  parse response = false <-> ~ has_affirmative_token (lowered response).
Proof.
  rewrite <- parse_true_iff. destruct (parse response); split; congruence.
Qed.

(** C1: a response is classified as an approving vote exactly when its
    lowercased decision text contains "approve", "accept" or "yes" as a
    substring, and as a rejecting vote otherwise; "Yes, I approve this
    trade" is an approval, "No, this is too risky" and "Not sure, maybe"
    are rejections. *)
Theorem classification_law :
  (forall response,
     (parse response = true <-> has_affirmative_token (lowered response))
     /\ (parse response = false <-> ~ has_affirmative_token (lowered response)))
  /\ parse (decides "Yes, I approve this trade") = true
  /\ parse (decides "No, this is too risky") = false
  /\ parse (decides "Not sure, maybe") = false.
Proof.
  split; [| repeat split; vm_compute; reflexivity].
  intros response. split; [apply parse_true_iff | apply parse_false_iff].
Qed.

Lemma parse_of_lowered_token (response : Output) (tok pre suf : str) :
  In tok affirmative_tokens ->
  lowered response = pre ++ tok ++ suf ->
  parse response = true.
Proof.
  intros Htok H. apply parse_true_iff. exists tok. split; [exact Htok |].
  now exists pre, suf.
Qed.

(** C8: the classifier is a pure substring test.  A decision text whose
    lowercasing contains an affirmative token anywhere is an approval;
    so is every text in which a token occurs in any letter case, whatever
    the text before and after it, "No, I do not approve" and "eyes"
    included. *)
Theorem token_anywhere_approves :
  (forall response tok pre suf,
     In tok affirmative_tokens ->
     lowered response = pre ++ tok ++ suf ->
     parse response = true)
  /\ (forall r pre mid suf,
       PyStr.is_ascii mid ->
       In (map PyStr.ascii_lower mid) affirmative_tokens ->
       parse {| reasoning := r; decision := pre ++ mid ++ suf |} = true)
  /\ parse (decides "No, I do not approve") = true
  /\ parse (decides "eyes") = true.
Proof.
  split; [exact parse_of_lowered_token |].
  split; [| split; vm_compute; reflexivity].
  intros r pre mid suf Hascii Htok.
  destruct (PyStrFacts.lower_around_ascii lower_ucs4 pre mid suf Hascii)
    as [pre' [suf' H]].
  eapply parse_of_lowered_token; [exact Htok | exact H].
Qed.

End Classifier.

(** A mixed-case token between texts outside ASCII. *)
Lemma token_anywhere_approves_witness :
  parse_advisor_response (fun _ _ c => [c])
    {| reasoning := [];
       decision := [233; 8364]%N ++ lit "YeS" ++ [937; 128512]%N |} = true.
Proof.
  apply (proj1 (proj2 (token_anywhere_approves (fun _ _ c => [c])))).
  - unfold PyStr.is_ascii. repeat constructor.
  - vm_compute. tauto.
Defined.

(** ** Vote aggregation *)

Lemma list_count_app (x : bool) (l l' : list bool) :
  list_count x (l ++ l') = list_count x l + list_count x l'.
Proof. induction l as [|y l IH]; simpl; [reflexivity | rewrite IH; lia]. Qed.

Lemma list_count_permutation (x : bool) (l l' : list bool) :
  Permutation l l' -> list_count x l = list_count x l'.
Proof.
  induction 1 as [| y l l' _ IH | y z l | l1 l2 l3 _ IH1 _ IH2]; simpl.
  - reflexivity.
  - now rewrite IH.
  - lia.
  - now rewrite IH1.
Qed.

Lemma list_count_repeat_same (x : bool) (n : nat) :
  list_count x (repeat x n) = n.
Proof.
  induction n as [|n IH]; simpl; [reflexivity |].
  now rewrite Bool.eqb_reflx, IH.
Qed.

Lemma list_count_repeat_other (x : bool) (n : nat) :
  list_count x (repeat (negb x) n) = 0.
Proof.
  induction n as [|n IH]; simpl; [reflexivity |].
  rewrite IH. now destruct x.
Qed.

(** Every vote is an approval or a rejection. *)
Lemma list_count_total (l : list bool) :
  list_count true l + list_count false l = List.length l.
Proof.
  induction l as [|[] l IH]; simpl; lia.
Qed.

Lemma counts_of_tally (votes : list bool) (a r : nat) :
  Permutation votes (repeat true a ++ repeat false r) ->
  list_count true votes = a /\ list_count false votes = r.
Proof.
  intros H. rewrite !(list_count_permutation _ _ _ H), !list_count_app.
  rewrite (list_count_repeat_same true), (list_count_repeat_same false).
  pose proof (list_count_repeat_other true r) as Hr.
  pose proof (list_count_repeat_other false a) as Ha.
  simpl in Hr, Ha. rewrite Hr, Ha. lia.
Qed.

(** C2: a vote list with [a] approvals and [r] rejections is accepted
    exactly when [a > r]; with [a <= r], ties included, it is rejected. *)
Theorem majority_law (votes : list bool) (a r : nat) :
  Permutation votes (repeat true a ++ repeat false r) ->
  (proposal_accepted votes = true <-> a > r)
  /\ (a <= r -> proposal_accepted votes = false)
  /\ (verdict_line votes = lit "Proposal accepted by advisors." <-> a > r).
Proof.
  intros H. destruct (counts_of_tally votes a r H) as [Ha Hr].
  unfold verdict_line, proposal_accepted. rewrite Ha, Hr.
  destruct (Nat.ltb_spec r a) as [Hlt | Hge];
    repeat split; intros; try lia; try reflexivity;
    match goal with E : _ = _ |- _ => vm_compute in E; discriminate E end.
Qed.

(** Two approvals against one rejection, and a tie of one against one. *)
Lemma majority_law_witness :
  Permutation [true; false; true] (repeat true 2 ++ repeat false 1)
  /\ proposal_accepted [true; false; true] = true
  /\ proposal_accepted [true; false] = false.
Proof.
  assert (P : Permutation [true; false; true] (repeat true 2 ++ repeat false 1)).
  { simpl. apply perm_skip, perm_swap. }
  split; [exact P |]. split.
  - apply (proj1 (majority_law _ 2 1 P)). lia.
  - reflexivity.
Defined.

(** C7: the verdict does not depend on the order of the votes. *)
Theorem verdict_order_independent (votes votes' : list bool) :
  Permutation votes votes' ->
  proposal_accepted votes = proposal_accepted votes'
  /\ verdict_line votes = verdict_line votes'.
Proof.
  intros H. unfold verdict_line, proposal_accepted.
  now rewrite (list_count_permutation true _ _ H), (list_count_permutation false _ _ H).
Qed.

Lemma verdict_order_independent_witness :
  proposal_accepted [true; false; true] = proposal_accepted [false; true; true].
Proof.
  apply (verdict_order_independent [true; false; true] [false; true; true]).
  apply perm_swap.
Defined.

(** ** The pre-decision turn loop *)

Section TurnLoop.
Variable Game : Type.
Variable play : Player -> Game -> Game.
Variable has_lost : Player -> Game -> bool.

Local Abbreviation loop := (turn_loop play has_lost).
Local Abbreviation round := (round_of play).
Local Abbreviation log := (rounds_log play has_lost).

Lemma engine_step_twice (cs cs' : list EngineCall) (g g' : Game) (w : World Game) :
  engine_step cs' g' (engine_step cs g w) = engine_step (cs ++ cs') g' w.
Proof.
  unfold engine_step; simpl. now rewrite app_assoc.
Qed.

(** One evaluation of the test of the [while]. *)
Lemma loop_test_run (idx_count : nat) (w : World Game) :
  loop_test has_lost idx_count w
  = Done (nobody_lost has_lost (game w) && (idx_count <? stop_at_round))
         (engine_step (test_calls has_lost (game w)) (game w) w).
Proof.
  unfold loop_test, bind, player_has_lost, nobody_lost, test_calls, ret.
  destruct (has_lost player1 (game w)); cbn [negb andb]; [reflexivity |].
  change (game (engine_step [HasLost player1] (game w) w)) with (game w).
  destruct (has_lost player2 (game w)); cbn [negb];
    now rewrite engine_step_twice.
Qed.

(** One pass of the [for]: both players play, in the order of the list. *)
Lemma play_round_run (w : World Game) :
  play_round play list_players w
  = Done tt (engine_step (map Play list_players) (round (game w)) w).
Proof.
  unfold list_players. cbn [play_round]. unfold bind, player_play, ret.
  now rewrite engine_step_twice.
Qed.

(** The body of the loop, iterated. *)
Lemma turn_loop_step (fuel idx_count : nat) (w : World Game) :
  loop (S fuel) idx_count w
  = if nobody_lost has_lost (game w) && (idx_count <? stop_at_round)
    then loop fuel (idx_count + 1)
           (engine_step (test_calls has_lost (game w) ++ map Play list_players)
              (round (game w)) w)
    else Done idx_count
           (engine_step (test_calls has_lost (game w)) (game w) w).
Proof.
  cbn [turn_loop]. unfold bind at 1. rewrite loop_test_run.
  destruct (nobody_lost has_lost (game w) && (idx_count <? stop_at_round)).
  - unfold bind. rewrite play_round_run. now rewrite engine_step_twice.
  - reflexivity.
Qed.

(** With fuel for the rounds that remain and one more test, the loop
    returns: it has played [rounds_played] whole rounds, and its calls on
    the engine are those of [rounds_log]. *)
Lemma turn_loop_run (fuel idx_count : nat) (w : World Game) :
  stop_at_round - idx_count < fuel ->
  let n := rounds_played play has_lost (stop_at_round - idx_count) (game w) in
  loop fuel idx_count w
  = Done (idx_count + n)
         (engine_step (log n (game w)) (after_rounds play n (game w)) w).
Proof.
  revert idx_count w. induction fuel as [|fuel IH]; intros idx_count w Hfuel.
  - lia.
  - cbv zeta. rewrite turn_loop_step.
    destruct (Nat.ltb_spec idx_count stop_at_round) as [Hlt | Hge].
    + replace (stop_at_round - idx_count)
        with (S (stop_at_round - (idx_count + 1))) by lia.
      cbn [rounds_played].
      destruct (nobody_lost has_lost (game w)); cbn [andb].
      * rewrite IH by lia. cbv zeta. cbn [game engine_step].
        set (n := rounds_played _ _ _ _).
        rewrite engine_step_twice. f_equal; [lia |].
        cbn [rounds_log]. rewrite <- app_assoc.
        unfold after_rounds. now rewrite Nat.iter_succ_r.
      * now rewrite Nat.add_0_r.
    + rewrite andb_false_r.
      replace (stop_at_round - idx_count) with 0 by lia.
      now rewrite Nat.add_0_r.
Qed.

Lemma after_rounds_succ (k : nat) (g : Game) :
  after_rounds play (S k) g = after_rounds play k (round g).
Proof. unfold after_rounds. now rewrite Nat.iter_succ_r. Qed.

Lemma rounds_played_le (budget : nat) (g : Game) :
  rounds_played play has_lost budget g <= budget.
Proof.
  revert g; induction budget as [|b IH]; intros g; cbn [rounds_played].
  - lia.
  - destruct (nobody_lost has_lost g); [specialize (IH (round g)) |]; lia.
Qed.

(** Before each round played, the test found no loser. *)
Lemma rounds_played_passed (budget : nat) (g : Game) (k : nat) :
  k < rounds_played play has_lost budget g ->
  nobody_lost has_lost (after_rounds play k g) = true.
Proof.
  revert g k; induction budget as [|b IH]; intros g k; cbn [rounds_played].
  - lia.
  - destruct (nobody_lost has_lost g) eqn:E; [| lia].
    destruct k as [|k]; intros Hk; [exact E |].
    rewrite after_rounds_succ. apply IH. lia.
Qed.

(** The loop stops short of its budget only on a loser. *)
Lemma rounds_played_stopped (budget : nat) (g : Game) :
  let n := rounds_played play has_lost budget g in
  n < budget -> nobody_lost has_lost (after_rounds play n g) = false.
Proof.
  revert g; induction budget as [|b IH]; intros g; cbn [rounds_played].
  - lia.
  - destruct (nobody_lost has_lost g) eqn:E; cbv zeta.
    + intros Hn. rewrite after_rounds_succ. apply IH. lia.
    + intros _. exact E.
Qed.

Lemma rounds_played_all (budget : nat) (g : Game) :
  (forall k, k < budget -> nobody_lost has_lost (after_rounds play k g) = true) ->
  rounds_played play has_lost budget g = budget.
Proof.
  revert g; induction budget as [|b IH]; intros g H; cbn [rounds_played].
  - reflexivity.
  - assert (H0 : nobody_lost has_lost g = true) by (apply (H 0); lia).
    rewrite H0. f_equal. apply IH. intros k Hk.
    rewrite <- after_rounds_succ. apply H. lia.
Qed.

Lemma rounds_log_shape (n : nat) (g : Game) :
  (forall k, k < n -> nobody_lost has_lost (after_rounds play k g) = true) ->
  log n g
  = List.concat (repeat full_round n) ++ test_calls has_lost (after_rounds play n g).
Proof.
  revert g; induction n as [|n IH]; intros g H; cbn [rounds_log].
  - reflexivity.
  - rewrite IH.
    + assert (H0 : nobody_lost has_lost g = true) by (apply (H 0); lia).
      unfold nobody_lost in H0. apply andb_true_iff in H0 as [H1 _].
      unfold test_calls at 1. apply negb_true_iff in H1. rewrite H1.
      now rewrite after_rounds_succ.
    + intros k Hk. rewrite <- after_rounds_succ. apply H. lia.
Qed.

Lemma plays_of_full_rounds (n : nat) (tail : list EngineCall) :
  (forall c, In c tail -> exists p, c = HasLost p) ->
  flat_map (fun c => match c with Play p => [p] | HasLost _ => [] end)
    (List.concat (repeat full_round n) ++ tail)
  = List.concat (repeat list_players n).
Proof.
  intros Htail. rewrite flat_map_app.
  replace (flat_map _ tail) with (@nil Player).
  - rewrite app_nil_r. induction n as [|n IH]; [reflexivity |].
    cbn [repeat List.concat]. rewrite flat_map_app, IH. reflexivity.
  - induction tail as [|c tail IH]; [reflexivity |].
    destruct (Htail c (or_introl eq_refl)) as [p ->]. cbn [flat_map app].
    apply IH. intros c' Hc'. apply Htail. now right.
Qed.

Lemma test_calls_are_tests (g : Game) (c : EngineCall) :
  In c (test_calls has_lost g) -> exists p, c = HasLost p.
Proof.
  unfold test_calls. destruct (has_lost player1 g); simpl;
    intros H; repeat destruct H as [<- | H]; try contradiction; eauto.
Qed.

(** C9: the losses are looked at between rounds only.  From a test that
    passes, player 1 and then player 2 play, whatever the first turn did
    to either of them; the calls on the engine are whole rounds of two
    tests followed by two turns, then the test that ends the loop; every
    test is made on the game as a whole number of rounds left it, and the
    loop ends on the first such game with a loser, or at [stop_at_round]. *)
Theorem loss_checked_between_rounds (fuel idx_count : nat) (w : World Game) :
  stop_at_round - idx_count < fuel ->
  let g := game w in
  let n := rounds_played play has_lost (stop_at_round - idx_count) g in
  loop fuel idx_count w
  = Done (idx_count + n)
      (engine_step
         (List.concat (repeat full_round n)
            ++ test_calls has_lost (after_rounds play n g))
         (after_rounds play n g) w)
  /\ (forall g', round g' = play player2 (play player1 g'))
  /\ (forall k, k < n -> nobody_lost has_lost (after_rounds play k g) = true)
  /\ (nobody_lost has_lost (after_rounds play n g) = false
      \/ stop_at_round <= idx_count + n).
Proof.
  intros Hfuel g n.
  assert (Hpass : forall k, k < n ->
            nobody_lost has_lost (after_rounds play k g) = true)
    by (intros k; apply rounds_played_passed).
  split; [| split; [reflexivity | split; [exact Hpass |]]].
  - rewrite (turn_loop_run fuel idx_count w Hfuel). cbv zeta. fold g n.
    now rewrite (rounds_log_shape n g Hpass).
  - pose proof (rounds_played_le (stop_at_round - idx_count) g) as Hle.
    fold n in Hle. destruct (Nat.eq_dec n (stop_at_round - idx_count)) as [E | E].
    + right. lia.
    + left. apply (rounds_played_stopped (stop_at_round - idx_count) g). fold n. lia.
Qed.

End TurnLoop.

(** Player 1 is ruined by its own turn of the first round: player 2 still
    plays, and the loop ends at the next test. *)
Lemma loss_checked_between_rounds_witness :
  Scenario.first_turn_ruins player1 (Scenario.count_turn player1 0) = true
  /\ turn_loop Scenario.count_turn Scenario.first_turn_ruins 6 0 (start 0)
     = Done 1 {| game := 2;
                 engine_calls := [HasLost player1; HasLost player2;
                                  Play player1; Play player2;
                                  HasLost player1];
                 invocations := []; stdout := [] |}.
Proof.
  split; [reflexivity |].
  exact (proj1 (loss_checked_between_rounds nat Scenario.count_turn
                  Scenario.first_turn_ruins 6 0 (start 0)
                  (Nat.lt_succ_diag_r 5))).
Defined.

(** ** The decision cycle *)

Section Cycle.
Variable lower_ucs4 : str -> nat -> N -> str.
Variable Game : Type.
Variable play : Player -> Game -> Game.
Variable has_lost : Player -> Game -> bool.
Variable invoke_reply : nat -> Prompt Game -> Reply.
Variable cb_total_tokens : list (Prompt Game) -> str.
Variable cb_total_cost : list (Prompt Game) -> str.

Local Abbreviation script :=
  (main lower_ucs4 play has_lost invoke_reply cb_total_tokens cb_total_cost).
Local Abbreviation cycle :=
  (decision_cycle lower_ucs4 invoke_reply cb_total_tokens cb_total_cost).

Lemma io_step_twice (ps ps' : list (Prompt Game)) (ls ls' : list str)
    (w : World Game) :
  io_step ps' ls' (io_step ps ls w) = io_step (ps ++ ps') (ls ++ ls') w.
Proof. unfold io_step; simpl. now rewrite !app_assoc. Qed.

Lemma io_step_nothing (w : World Game) : io_step [] [] w = w.
Proof. destruct w; unfold io_step; simpl. now rewrite !app_nil_r. Qed.

Lemma printed_twice (l l' : list str) (w : World Game) :
  printed l' (printed l w) = printed (l ++ l') w.
Proof. unfold printed. now rewrite io_step_twice. Qed.

(** The proposal request is one call of the collaborator, on the prompt
    of the current game. *)
Lemma request_proposal_run (w : World Game) :
  let prompt := ProposalPrompt agent_role (game w) in
  request_proposal invoke_reply w
  = match invoke_reply (List.length (invocations w)) prompt with
    | Returns proposal =>
        Done proposal (printed (proposal_lines proposal) (sent prompt w))
    | Raises e => Raised e (sent prompt w)
    | Hangs => Blocked (sent prompt w)
    end.
Proof.
  cbv zeta. unfold request_proposal, bind, read_game, structured_llm_invoke.
  destruct (invoke_reply _ _) as [proposal | e |]; try reflexivity.
  unfold print, ret. now rewrite !printed_twice.
Qed.

(** The script is the turn loop followed by the decision cycle. *)
Lemma main_after_loop (g0 : Game) :
  let n := rounds_played play has_lost stop_at_round g0 in
  script (start g0)
  = cycle advisors
      (engine_step (rounds_log play has_lost n g0) (after_rounds play n g0)
         (start g0)).
Proof.
  cbv zeta. unfold main, bind at 1.
  rewrite (turn_loop_run Game play has_lost (S stop_at_round) 0 (start g0)) by lia.
  now rewrite Nat.sub_0_r.
Qed.

Local Abbreviation panel := (advisor_loop lower_ucs4 invoke_reply).
Local Abbreviation vote_of := (parse_advisor_response lower_ucs4).
Local Abbreviation returned := (all_return invoke_reply).

(** One pass of the [for] over the advisors: one call of the collaborator;
    a response is parsed, appended and printed, anything else ends the
    loop. *)
Lemma advisor_loop_step (advisor : Advisor) (advs : list Advisor) (d : str)
    (votes : list bool) (w : World Game) :
  let prompt := AdvisorPrompt advisor (game w) d in
  panel (advisor :: advs) d votes w
  = match invoke_reply (List.length (invocations w)) prompt with
    | Returns response =>
        panel advs d (votes ++ [vote_of response])
          (io_step [prompt] [vote_line advisor (vote_of response)] w)
    | Raises e => Raised e (sent prompt w)
    | Hangs => Blocked (sent prompt w)
    end.
Proof.
  cbv zeta. cbn [advisor_loop].
  unfold bind, read_game, structured_llm_invoke.
  destruct (invoke_reply _ _) as [response | e |]; try reflexivity.
  unfold print, printed, sent. now rewrite io_step_twice.
Qed.

(** The advisors whose evaluations return are heard in turn. *)
Lemma advisor_loop_heard (before rest : list Advisor) (responses : list Output)
    (d : str) (votes : list bool) (w : World Game) :
  returned (List.length (invocations w)) (game w) d before responses ->
  panel (before ++ rest) d votes w
  = panel rest d (votes ++ map vote_of responses)
      (io_step (advisor_prompts (game w) d before)
         (vote_lines before (map vote_of responses)) w).
Proof.
  revert responses votes w.
  induction before as [|advisor before IH]; intros [|response responses] votes w;
    cbn [all_return]; try contradiction.
  - intros _. cbn [app map advisor_prompts vote_lines combine].
    now rewrite app_nil_r, io_step_nothing.
  - intros [Hreply Hrest]. cbn [app]. rewrite advisor_loop_step. cbv zeta.
    rewrite Hreply. rewrite (IH responses).
    + rewrite io_step_twice, <- app_assoc. reflexivity.
    + cbn [io_step invocations game]. rewrite length_app, Nat.add_1_r.
      exact Hrest.
Qed.

Lemma all_return_length (n : nat) (g : Game) (d : str) (advs : list Advisor)
    (responses : list Output) :
  returned n g d advs responses -> List.length responses = List.length advs.
Proof.
  revert n responses; induction advs as [|a advs IH];
    intros n [|o responses]; cbn [all_return]; try contradiction.
  - reflexivity.
  - intros [_ H]. cbn [List.length]. f_equal. exact (IH _ _ H).
Qed.

(** When every evaluation returns, the loop returns one vote for each
    advisor. *)
Lemma advisor_loop_all_heard (advs : list Advisor) (responses : list Output)
    (d : str) (votes : list bool) (w : World Game) :
  returned (List.length (invocations w)) (game w) d advs responses ->
  panel advs d votes w
  = Done (votes ++ map vote_of responses)
      (io_step (advisor_prompts (game w) d advs)
         (vote_lines advs (map vote_of responses)) w).
Proof.
  intros H. rewrite <- (app_nil_r advs) at 1.
  now rewrite (advisor_loop_heard advs [] responses d votes w H).
Qed.

Lemma advisor_prompts_length (g : Game) (d : str) (advs : list Advisor) :
  List.length (advisor_prompts g d advs) = List.length advs.
Proof. unfold advisor_prompts. apply length_map. Qed.


(** The cycle is the proposal request, then the advisor loop and the
    announcement. *)
Lemma decision_cycle_run (advs : list Advisor) (w : World Game) :
  let prompt := ProposalPrompt agent_role (game w) in
  cycle advs w
  = match invoke_reply (List.length (invocations w)) prompt with
    | Returns proposal =>
        match panel advs (decision proposal) []
                (printed (proposal_lines proposal) (sent prompt w)) with
        | Done votes w' =>
            Done votes
              (printed [verdict_line votes;
                        lit "Total Tokens Used: "
                          ++ cb_total_tokens (invocations w');
                        lit "Total Cost (USD): $"
                          ++ cb_total_cost (invocations w')] w')
        | Raised e w' => Raised e w'
        | Blocked w' => Blocked w'
        end
    | Raises e => Raised e (sent prompt w)
    | Hangs => Blocked (sent prompt w)
    end.
Proof.
  cbv zeta. unfold decision_cycle, bind at 1. rewrite request_proposal_run.
  cbv zeta. destruct (invoke_reply _ _) as [proposal | e |]; try reflexivity.
  unfold bind at 1. destruct (panel advs _ _ _) as [votes w' | e w' | w'];
    try reflexivity.
  unfold announce, bind, print, read_invocations, ret.
  cbn [invocations printed io_step].
  rewrite !printed_twice, !app_nil_r. reflexivity.
Qed.

(** C10: the empty vote list is rejected, zero approvals not being more
    than zero rejections; a panel of no advisor yields it, and the cycle
    then prints the rejecting verdict and returns, with no error and no
    quorum test. *)
Theorem empty_vote_list_rejected :
  proposal_accepted [] = false
  /\ verdict_line [] = lit "Proposal rejected by advisors."
  /\ (forall d w, panel [] d [] w = Done [] w)
  /\ (forall w,
       announce cb_total_tokens cb_total_cost [] w
       = Done tt
           (printed [lit "Proposal rejected by advisors.";
                     lit "Total Tokens Used: "
                       ++ cb_total_tokens (invocations w);
                     lit "Total Cost (USD): $"
                       ++ cb_total_cost (invocations w)] w))
  /\ (forall w proposal,
       invoke_reply (List.length (invocations w))
         (ProposalPrompt agent_role (game w)) = Returns proposal ->
       exists w', cycle [] w = Done [] w'
                  /\ rejects (cycle [] w)
                  /\ stdout w'
                     = stdout w ++ proposal_lines proposal
                         ++ [lit "Proposal rejected by advisors.";
                             lit "Total Tokens Used: "
                               ++ cb_total_tokens (invocations w');
                             lit "Total Cost (USD): $"
                               ++ cb_total_cost (invocations w')]).
Proof.
  split; [reflexivity |]. split; [reflexivity |]. split; [reflexivity |].
  split.
  - intros w. unfold announce, bind, print, read_invocations, ret.
    cbn [invocations printed io_step]. rewrite !printed_twice, !app_nil_r.
    reflexivity.
  - intros w proposal Hreply.
    pose proof (decision_cycle_run [] w) as Hrun. cbv zeta in Hrun.
    rewrite Hreply in Hrun. cbn [advisor_loop] in Hrun. unfold ret in Hrun.
    rewrite printed_twice in Hrun.
    eexists. split; [exact Hrun |]. split.
    + unfold rejects. rewrite Hrun. cbn [world_of stdout printed sent io_step].
      rewrite !in_app_iff. right. right. left. reflexivity.
    + cbn [stdout printed sent io_step invocations].
      rewrite app_nil_r, <- !app_assoc. reflexivity.
Qed.

(** C3, as the script has it: when every advisor evaluation raises, the
    cycle has no verdict.  The exception of the first advisor's evaluation
    leaves the cycle as it is, after the lines of the proposal and before
    any vote or verdict line, and no other advisor is consulted. *)
Theorem failing_panel_ends_cycle (first : Advisor) (others : list Advisor)
    (proposal : Output) (w : World Game) :
  let g := game w in
  let n := List.length (invocations w) in
  invoke_reply n (ProposalPrompt agent_role g) = Returns proposal ->
  every_advisor_fails invoke_reply ->
  exists e,
    invoke_reply (S n) (AdvisorPrompt first g (decision proposal)) = Raises e
    /\ cycle (first :: others) w
       = Raised e
           (io_step [ProposalPrompt agent_role g;
                     AdvisorPrompt first g (decision proposal)]
              (proposal_lines proposal) w).
Proof.
  intros g n Hproposal Hfail.
  destruct (Hfail (S n) first g (decision proposal)) as [e He].
  exists e. split; [exact He |].
  rewrite decision_cycle_run. cbv zeta. fold g n. rewrite Hproposal.
  unfold printed, sent. rewrite io_step_twice. cbn [app].
  rewrite advisor_loop_step. cbv zeta. cbn [io_step invocations game].
  rewrite length_app, Nat.add_1_r. fold g n. rewrite He.
  unfold sent.
  change {| game := g; engine_calls := engine_calls w;
            invocations := invocations w ++ [ProposalPrompt agent_role g];
            stdout := stdout w ++ proposal_lines proposal |}
    with (io_step [ProposalPrompt agent_role g] (proposal_lines proposal) w).
  now rewrite io_step_twice, app_nil_r.
Qed.



(** The advisor loop only adds to the prompts sent. *)
Lemma advisor_loop_appends (advs : list Advisor) (d : str) (votes : list bool)
    (w : World Game) :
  exists asked,
    invocations (world_of (panel advs d votes w)) = invocations w ++ asked.
Proof.
  revert votes w. induction advs as [|advisor advs IH]; intros votes w.
  - exists []. cbn. now rewrite app_nil_r.
  - rewrite advisor_loop_step. cbv zeta.
    destruct (invoke_reply _ _) as [response | e |];
      try (eexists; reflexivity).
    destruct (IH (votes ++ [vote_of response])
                (io_step [AdvisorPrompt advisor (game w) d]
                   [vote_line advisor (vote_of response)] w)) as [asked E].
    exists (AdvisorPrompt advisor (game w) d :: asked). rewrite E.
    cbn [io_step invocations]. now rewrite <- app_assoc.
Qed.

(** Whatever the collaborator replies, the first thing a cycle sends is
    the prompt of the proposal, on the game it starts on. *)
Lemma cycle_first_call (advs : list Advisor) (w : World Game) :
  exists asked,
    invocations (world_of (cycle advs w))
    = invocations w ++ ProposalPrompt agent_role (game w) :: asked.
Proof.
  rewrite decision_cycle_run. cbv zeta.
  destruct (invoke_reply _ _) as [proposal | e |];
    try (exists []; reflexivity).
  destruct (advisor_loop_appends advs (decision proposal) []
              (printed (proposal_lines proposal)
                 (sent (ProposalPrompt agent_role (game w)) w)))
    as [asked E].
  cbn [printed sent io_step invocations] in E.
  rewrite app_nil_r, <- app_assoc in E. cbn [app] in E.
  exists asked.
  destruct (panel advs _ _ _) as [votes w' | e w' | w'];
    cbn [world_of] in *; cbn [printed io_step invocations];
    rewrite ?app_nil_r; exact E.
Qed.

(** C5: with [stop_at_round = 5], two players and no loser at the start
    of any of the five rounds, the turn loop returns after exactly five
    rounds, that is ten [play()] calls, and the script goes on to request
    the proposal on the game of that moment: the first prompt that the
    script sends is the prompt of the proposal on the game after the
    five rounds. *)
Theorem five_rounds_then_proposal (g0 : Game) :
  (forall k, k < 5 -> nobody_lost has_lost (after_rounds play k g0) = true) ->
  exists w,
    turn_loop play has_lost (S stop_at_round) 0 (start g0) = Done 5 w
    /\ game w = after_rounds play 5 g0
    /\ play_calls w
       = [player1; player2; player1; player2; player1; player2;
          player1; player2; player1; player2]
    /\ List.length (play_calls w) = 10
    /\ script (start g0) = cycle advisors w
    /\ invocations (world_of (request_proposal invoke_reply w))
       = [ProposalPrompt agent_role (after_rounds play 5 g0)]
    /\ exists asked,
         invocations (world_of (script (start g0)))
         = ProposalPrompt agent_role (after_rounds play 5 g0) :: asked.
Proof.
  intros H.
  assert (Hn : rounds_played play has_lost stop_at_round g0 = 5)
    by (apply (rounds_played_all Game play has_lost 5 g0 H)).
  assert (Hplays :
    play_calls (engine_step (rounds_log play has_lost 5 g0)
                  (after_rounds play 5 g0) (start g0))
    = List.concat (repeat list_players 5)).
  { unfold play_calls. cbn [engine_calls engine_step start app].
    rewrite (rounds_log_shape Game play has_lost 5 g0 H).
    apply plays_of_full_rounds, test_calls_are_tests. }
  eexists. split; [| split; [| split; [| split; [| split; [| split]]]]].
  - rewrite (turn_loop_run Game play has_lost (S stop_at_round) 0 (start g0)) by lia.
    rewrite Nat.sub_0_r. change (game (start g0)) with g0.
    rewrite Hn. reflexivity.
  - reflexivity.
  - rewrite Hplays. reflexivity.
  - rewrite Hplays. reflexivity.
  - rewrite main_after_loop, Hn. reflexivity.
  - rewrite request_proposal_run. cbv zeta.
    destruct (invoke_reply _ _); reflexivity.
  - rewrite main_after_loop, Hn.
    destruct (cycle_first_call advisors
                (engine_step (rounds_log play has_lost 5 g0)
                   (after_rounds play 5 g0) (start g0))) as [asked E].
    exists asked. exact E.
Qed.

End Cycle.

Lemma five_rounds_then_proposal_witness :
  exists w,
    turn_loop Scenario.count_turn Scenario.nobody_loses 6 0 (start 0) = Done 5 w
    /\ game w = 10
    /\ List.length (play_calls w) = 10
    /\ exists asked,
         invocations (world_of (Scenario.run Scenario.all_approve))
         = ProposalPrompt agent_role 10 :: asked.
Proof.
  destruct (five_rounds_then_proposal Scenario.plain_lower nat
              Scenario.count_turn Scenario.nobody_loses Scenario.all_approve
              Scenario.usage_unknown Scenario.usage_unknown 0)
    as [w [Hw [Hg [_ [Hl [_ [_ Hasked]]]]]]].
  - intros k _. reflexivity.
  - exists w. split; [exact Hw |]. split; [| split; [exact Hl | exact Hasked]].
    rewrite Hg. reflexivity.
Defined.

(** ** The script on concrete collaborators *)

Lemma advisors_fail_always : every_advisor_fails Scenario.advisors_fail.
Proof. intros n advisor g d. eexists. reflexivity. Qed.

(** Every advisor evaluation raises: the script ends by the exception of
    the first one, with the lines of the proposal and no verdict. *)
Lemma all_abstain_counterexample :
  every_advisor_fails Scenario.advisors_fail
  /\ reports "MalformedDecisionError" (Scenario.run Scenario.advisors_fail)
  /\ stdout (world_of (Scenario.run Scenario.advisors_fail))
     = proposal_lines (decides "yes, buy the property")
  /\ invocations (world_of (Scenario.run Scenario.advisors_fail))
     = [ProposalPrompt agent_role 10;
        AdvisorPrompt advisor_A 10 (lit "yes, buy the property")]
  /\ ~ rejects (Scenario.run Scenario.advisors_fail)
  /\ ~ reports "AllAdvisorsAbstainedError" (Scenario.run Scenario.advisors_fail)
  /\ ~ all_abstain_law (Scenario.run Scenario.advisors_fail).
Proof.
  assert (Hrej : ~ rejects (Scenario.run Scenario.advisors_fail)).
  { unfold rejects. vm_compute.
    intros [H | [H | [H | [H | [H | []]]]]];
      apply (f_equal (fun l => N.eqb (nth 9 l 0%N) 114)) in H;
      vm_compute in H; discriminate H. }
  assert (Hrep : ~ reports "AllAdvisorsAbstainedError"
                     (Scenario.run Scenario.advisors_fail)).
  { intros [w H]. vm_compute in H. discriminate H. }
  split; [exact advisors_fail_always |].
  split; [eexists; vm_compute; reflexivity |].
  split; [vm_compute; reflexivity |].
  split; [vm_compute; reflexivity |].
  split; [exact Hrej |]. split; [exact Hrep |].
  intros [H _]. exact (Hrej H).
Qed.

Lemma failing_panel_ends_cycle_witness :
  exists e,
    Scenario.advisors_fail 1
      (AdvisorPrompt advisor_A 0 (lit "yes, buy the property")) = Raises e
    /\ decision_cycle Scenario.plain_lower Scenario.advisors_fail
         Scenario.usage_unknown Scenario.usage_unknown advisors (start 0)
       = Raised e
           (io_step [ProposalPrompt agent_role 0;
                     AdvisorPrompt advisor_A 0 (lit "yes, buy the property")]
              (proposal_lines (decides "yes, buy the property")) (start 0)).
Proof.
  exact (failing_panel_ends_cycle Scenario.plain_lower nat
           Scenario.advisors_fail Scenario.usage_unknown Scenario.usage_unknown
           advisor_A [advisor_B; advisor_C] (decides "yes, buy the property")
           (start 0) eq_refl advisors_fail_always).
Defined.





Lemma empty_vote_list_rejected_witness :
  exists w',
    decision_cycle Scenario.plain_lower Scenario.all_approve
      Scenario.usage_unknown Scenario.usage_unknown [] (start 0) = Done [] w'
    /\ In (lit "Proposal rejected by advisors.") (stdout w').
Proof.
  destruct (proj2 (proj2 (proj2 (proj2
              (empty_vote_list_rejected Scenario.plain_lower nat
                 Scenario.all_approve Scenario.usage_unknown
                 Scenario.usage_unknown))))
              (start 0) (decides "approve") eq_refl)
    as [w' [Hrun [_ Hout]]].
  exists w'. split; [exact Hrun |].
  rewrite Hout. cbn [stdout start app]. rewrite in_app_iff. right. left.
  reflexivity.
Defined.

(** * Further properties of the code *)

(** ** More on the vote classifier *)

Module ClassifierFacts.
Import PyStr.

Lemma startswith_length (p s : str) :
  startswith p s = true -> List.length p <= List.length s.
Proof.
  intros H. apply PyStrFacts.startswith_prefix in H as [suf ->].
  rewrite length_app. lia.
Qed.

(** A needle is never longer than a text that holds it. *)
Lemma contains_length (needle hay : str) :
  contains needle hay = true -> List.length needle <= List.length hay.
Proof.
  intros H. apply PyStrFacts.contains_substring in H as [pre [suf ->]].
  rewrite !length_app. lia.
Qed.

Section WithLower.
Variable lower_ucs4 : str -> nat -> N -> str.

Local Abbreviation parse := (parse_advisor_response lower_ucs4).

Lemma lower_ascii (d : str) :
  is_ascii d -> lower lower_ucs4 d = map ascii_lower d.
Proof. intros H. unfold lower. now apply PyStrFacts.lower_from_ascii. Qed.

Lemma tokens_length (tok : str) :
  In tok affirmative_tokens -> 3 <= List.length tok.
Proof.
  unfold affirmative_tokens. intros [<- | [<- | [<- | []]]]; simpl; lia.
Qed.

(** X1: a decision whose lowercased text has fewer than three code points
    is a rejection; so are the empty decision and every ASCII decision of
    fewer than three characters. *)
Theorem short_decision_rejected (response : Output) :
  (List.length (lower lower_ucs4 (decision response)) < 3 ->
   parse response = false)
  /\ (decision response = [] -> parse response = false)
  /\ (is_ascii (decision response) ->
      List.length (decision response) < 3 -> parse response = false).
Proof.
  assert (Hshort : List.length (lower lower_ucs4 (decision response)) < 3 ->
                   parse response = false).
  { intros Hlen. apply parse_false_iff. intros [tok [Htok [pre [suf E]]]].
    apply tokens_length in Htok. rewrite E, !length_app in Hlen. lia. }
  split; [exact Hshort |]. split.
  - intros E. apply Hshort. rewrite E. simpl. lia.
  - intros Hascii Hlen. apply Hshort.
    now rewrite (lower_ascii _ Hascii), length_map.
Qed.

(** X2: two ASCII decisions that differ only in the case of their letters
    get the same vote. *)
Theorem vote_ignores_ascii_case (r r' : Output) :
  is_ascii (decision r) -> is_ascii (decision r') ->
  map ascii_lower (decision r) = map ascii_lower (decision r') ->
  parse r = parse r'.
Proof.
  intros H H' E. unfold parse_advisor_response. cbv zeta.
  now rewrite (lower_ascii _ H), (lower_ascii _ H'), E.
Qed.

(** X3: text added before or after an approving ASCII decision never
    turns the approval into a rejection. *)
Theorem approval_survives_context (reasoning' : str) (r : Output)
    (pre suf : str) :
  is_ascii (decision r) ->
  parse r = true ->
  parse {| reasoning := reasoning'; decision := pre ++ decision r ++ suf |}
  = true.
Proof.
  intros Hascii Hyes.
  apply parse_true_iff in Hyes as [tok [Htok [a [b E]]]].
  rewrite (lower_ascii _ Hascii) in E.
  destruct (PyStrFacts.lower_around_ascii lower_ucs4 pre (decision r) suf Hascii)
    as [pre' [suf' E']].
  apply parse_true_iff. exists tok. split; [exact Htok |].
  exists (pre' ++ a), (b ++ suf'). cbn [decision].
  rewrite E', E, <- !app_assoc. reflexivity.
Qed.

End WithLower.
End ClassifierFacts.

Lemma short_decision_rejected_witness :
  parse_advisor_response Scenario.plain_lower (decides "no") = false.
Proof.
  apply (proj2 (proj2 (ClassifierFacts.short_decision_rejected
                         Scenario.plain_lower (decides "no")))).
  - unfold PyStr.is_ascii. repeat constructor.
  - simpl. lia.
Defined.

Lemma vote_ignores_ascii_case_witness :
  parse_advisor_response Scenario.plain_lower (decides "I ACCEPT")
  = parse_advisor_response Scenario.plain_lower (decides "i accept").
Proof.
  apply ClassifierFacts.vote_ignores_ascii_case.
  - unfold PyStr.is_ascii. repeat constructor.
  - unfold PyStr.is_ascii. repeat constructor.
  - reflexivity.
Defined.

Lemma approval_survives_context_witness :
  parse_advisor_response Scenario.plain_lower
    {| reasoning := [];
       decision := lit "I would never say " ++ lit "yes" ++ [8230]%N |}
  = true.
Proof.
  apply (ClassifierFacts.approval_survives_context Scenario.plain_lower []
           (decides "yes") (lit "I would never say ") [8230]%N).
  - unfold PyStr.is_ascii. repeat constructor.
  - reflexivity.
Defined.

(** ** More on the vote aggregation *)

Lemma list_count_negated (x : bool) (l : list bool) :
  list_count x (map negb l) = list_count (negb x) l.
Proof.
  induction l as [|y l IH]; simpl; [reflexivity |].
  rewrite IH. now destruct x, y.
Qed.

Lemma list_count_middle (x v : bool) (l1 l2 : list bool) :
  list_count x (l1 ++ v :: l2)
  = (if Bool.eqb v x then 1 else 0) + list_count x l1 + list_count x l2.
Proof. rewrite list_count_app. simpl. lia. Qed.

(** X4: an odd number of votes, as the three of the script's panel, is
    never a tie: the proposal is accepted exactly when the approvals are
    more than half of the votes, and the opposite votes give the opposite
    verdict. *)
Theorem odd_panel_never_ties (votes : list bool) :
  Nat.odd (List.length votes) = true ->
  list_count true votes <> list_count false votes
  /\ (proposal_accepted votes = true
      <-> List.length votes < 2 * list_count true votes)
  /\ proposal_accepted (map negb votes) = negb (proposal_accepted votes).
Proof.
  intros Hodd. pose proof (list_count_total votes) as Htotal.
  assert (Hne : list_count true votes <> list_count false votes).
  { intros E. rewrite <- Htotal, E in Hodd.
    replace (list_count false votes + list_count false votes)
      with (2 * list_count false votes) in Hodd by lia.
    rewrite Nat.odd_even in Hodd. discriminate Hodd. }
  split; [exact Hne |]. unfold proposal_accepted.
  rewrite !list_count_negated. cbn [negb]. split.
  - rewrite Nat.ltb_lt. lia.
  - destruct (Nat.ltb_spec (list_count false votes) (list_count true votes));
      destruct (Nat.ltb_spec (list_count true votes) (list_count false votes));
      cbn [negb]; try reflexivity; lia.
Qed.

Lemma odd_panel_never_ties_witness :
  proposal_accepted [false; true; false] = false
  /\ proposal_accepted (map negb [false; true; false]) = true.
Proof.
  destruct (odd_panel_never_ties [false; true; false] eq_refl) as [_ [_ H]].
  split; [reflexivity | exact H].
Defined.

(** X5: the verdict is monotone in the votes: when a proposal is accepted,
    it stays accepted if one of the votes becomes an approval, and if an
    approval is added to the votes. *)
Theorem approval_keeps_acceptance (l1 l2 : list bool) (v : bool) :
  proposal_accepted (l1 ++ v :: l2) = true ->
  proposal_accepted (l1 ++ true :: l2) = true
  /\ proposal_accepted (l1 ++ v :: l2 ++ [true]) = true.
Proof.
  unfold proposal_accepted.
  rewrite !Nat.ltb_lt, !list_count_middle. simpl.
  destruct v; simpl; lia.
Qed.

Lemma approval_keeps_acceptance_witness :
  proposal_accepted [true; true; true] = true
  /\ proposal_accepted [true; false; true; true] = true.
Proof.
  exact (approval_keeps_acceptance [true] [true] false eq_refl).
Defined.

(** ** More on the turn loop *)

Section TurnLoopBounds.
Variable Game : Type.
Variable play : Player -> Game -> Game.
Variable has_lost : Player -> Game -> bool.

Lemma play_calls_engine_step (cs : list EngineCall) (g' : Game)
    (w : World Game) :
  play_calls (engine_step cs g' w)
  = play_calls w
      ++ flat_map (fun c => match c with Play p => [p] | HasLost _ => [] end) cs.
Proof. unfold play_calls. cbn [engine_calls engine_step]. apply flat_map_app. Qed.

(** X6: the turn loop always returns, whatever the game does and from any
    count.  It has then played whole rounds only, at most as many as were
    left before [stop_at_round], player 1 before player 2 in each; it has
    sent nothing to the collaborator and printed nothing. *)
Theorem turn_loop_returns (idx_count : nat) (w : World Game) :
  exists n w',
    turn_loop play has_lost (S stop_at_round) idx_count w
    = Done (idx_count + n) w'
    /\ n <= stop_at_round - idx_count
    /\ game w' = after_rounds play n (game w)
    /\ play_calls w' = play_calls w ++ List.concat (repeat list_players n)
    /\ List.length (play_calls w') = List.length (play_calls w) + 2 * n
    /\ invocations w' = invocations w
    /\ stdout w' = stdout w.
Proof.
  set (n := rounds_played play has_lost (stop_at_round - idx_count) (game w)).
  assert (Hplays :
    play_calls (engine_step (rounds_log play has_lost n (game w))
                  (after_rounds play n (game w)) w)
    = play_calls w ++ List.concat (repeat list_players n)).
  { rewrite play_calls_engine_step. f_equal.
    rewrite (rounds_log_shape Game play has_lost n (game w)).
    - apply plays_of_full_rounds. apply test_calls_are_tests.
    - intros k Hk. now apply (rounds_played_passed Game play has_lost
                                (stop_at_round - idx_count)). }
  exists n, (engine_step (rounds_log play has_lost n (game w))
               (after_rounds play n (game w)) w).
  split.
  - apply (turn_loop_run Game play has_lost (S stop_at_round) idx_count w). lia.
  - split; [apply rounds_played_le |]. split; [reflexivity |].
    split; [exact Hplays |]. split; [| split; reflexivity].
    rewrite Hplays, length_app. f_equal.
    clear. induction n as [|n IH]; [reflexivity |].
    cbn [repeat List.concat]. rewrite length_app, IH. simpl. lia.
Qed.

End TurnLoopBounds.

(** ** More on the decision cycle *)

Section CycleFacts.
Variable lower_ucs4 : str -> nat -> N -> str.
Variable Game : Type.
Variable play : Player -> Game -> Game.
Variable has_lost : Player -> Game -> bool.
Variable invoke_reply : nat -> Prompt Game -> Reply.
Variable cb_total_tokens : list (Prompt Game) -> str.
Variable cb_total_cost : list (Prompt Game) -> str.

Local Abbreviation script :=
  (main lower_ucs4 play has_lost invoke_reply cb_total_tokens cb_total_cost).
Local Abbreviation cycle :=
  (decision_cycle lower_ucs4 invoke_reply cb_total_tokens cb_total_cost).
Local Abbreviation panel := (advisor_loop lower_ucs4 invoke_reply).
Local Abbreviation vote_of := (parse_advisor_response lower_ucs4).
Local Abbreviation returned := (all_return invoke_reply).

(** The advisor loop does not touch the engine. *)
Lemma advisor_loop_engine (advs : list Advisor) (d : str) (votes : list bool)
    (w : World Game) :
  game (world_of (panel advs d votes w)) = game w
  /\ engine_calls (world_of (panel advs d votes w)) = engine_calls w.
Proof.
  revert votes w. induction advs as [|advisor advs IH]; intros votes w.
  - split; reflexivity.
  - rewrite (advisor_loop_step lower_ucs4 Game invoke_reply). cbv zeta.
    destruct (invoke_reply _ _) as [response | e |]; try (split; reflexivity).
    destruct (IH (votes ++ [vote_of response])
                (io_step [AdvisorPrompt advisor (game w) d]
                   [vote_line advisor (vote_of response)] w)) as [Hg He].
    rewrite Hg, He. split; reflexivity.
Qed.

(** The prompts of the advisor loop are those of the first advisors of
    the panel, in its order. *)
Lemma advisor_loop_invocations (advs : list Advisor) (d : str)
    (votes : list bool) (w : World Game) :
  exists k,
    k <= List.length advs
    /\ invocations (world_of (panel advs d votes w))
       = invocations w ++ firstn k (advisor_prompts (game w) d advs).
Proof.
  revert votes w. induction advs as [|advisor advs IH]; intros votes w.
  - exists 0. split; [lia |]. cbn. now rewrite app_nil_r.
  - rewrite (advisor_loop_step lower_ucs4 Game invoke_reply). cbv zeta.
    destruct (invoke_reply _ _) as [response | e |];
      try (exists 1; split; [simpl; lia | reflexivity]).
    destruct (IH (votes ++ [vote_of response])
                (io_step [AdvisorPrompt advisor (game w) d]
                   [vote_line advisor (vote_of response)] w)) as [k [Hk E]].
    exists (S k). split; [simpl; lia |]. rewrite E.
    cbn [io_step invocations game advisor_prompts map firstn].
    now rewrite <- app_assoc.
Qed.

(** X7: the decision cycle makes no [play()] and no [has_lost()] call,
    however it ends and whatever the verdict: an accepted proposal is
    announced, not played.  (The players are asked for their state when
    the prompt of the proposal is rendered; that reading belongs to the
    prompt here, and is not one of the engine calls.) *)
Theorem cycle_plays_no_turn (advs : list Advisor) (w : World Game) :
  engine_calls (world_of (cycle advs w)) = engine_calls w
  /\ play_calls (world_of (cycle advs w)) = play_calls w.
Proof.
  assert (He : engine_calls (world_of (cycle advs w)) = engine_calls w).
  { rewrite (decision_cycle_run lower_ucs4 Game invoke_reply
               cb_total_tokens cb_total_cost advs w). cbv zeta.
    destruct (invoke_reply _ _) as [proposal | e |]; try reflexivity.
    destruct (advisor_loop_engine advs (decision proposal) []
                (printed (proposal_lines proposal)
                   (sent (ProposalPrompt agent_role (game w)) w))) as [_ He].
    destruct (panel advs _ _ _) as [votes w' | e w' | w'];
      cbn [world_of] in *; cbn [printed sent io_step engine_calls] in *;
      assumption. }
  split; [exact He |]. unfold play_calls. now rewrite He.
Qed.

(** X8: a cycle calls the collaborator once for the proposal and then at
    most once for each advisor.  The advisors are asked in the order of
    the panel, all on the game the proposal was asked on, and each is
    given the decision text of the proposal as the proposed action. *)
Theorem cycle_calls (advs : list Advisor) (w : World Game) :
  let prompt := ProposalPrompt agent_role (game w) in
  exists asked,
    invocations (world_of (cycle advs w)) = invocations w ++ prompt :: asked
    /\ List.length asked <= List.length advs
    /\ match invoke_reply (List.length (invocations w)) prompt with
       | Returns proposal =>
           asked = firstn (List.length asked)
                     (advisor_prompts (game w) (decision proposal) advs)
       | _ => asked = []
       end.
Proof.
  cbv zeta.
  rewrite (decision_cycle_run lower_ucs4 Game invoke_reply
             cb_total_tokens cb_total_cost advs w). cbv zeta.
  destruct (invoke_reply _ _) as [proposal | e |];
    try (exists []; split; [reflexivity | split; [simpl; lia | reflexivity]]).
  destruct (advisor_loop_invocations advs (decision proposal) []
              (printed (proposal_lines proposal)
                 (sent (ProposalPrompt agent_role (game w)) w)))
    as [k [Hk E]].
  cbn [printed sent io_step invocations game] in E.
  rewrite app_nil_r, <- app_assoc in E. cbn [app] in E.
  exists (firstn k (advisor_prompts (game w) (decision proposal) advs)).
  assert (Hlen : List.length
                   (firstn k (advisor_prompts (game w) (decision proposal) advs))
                 = k).
  { apply firstn_length_le. now rewrite advisor_prompts_length. }
  split; [| split; [lia | now rewrite Hlen]].
  destruct (panel advs _ _ _) as [votes w' | e w' | w'];
    cbn [world_of] in *; cbn [printed io_step invocations];
    rewrite ?app_nil_r; exact E.
Qed.

(** The cycle when every call returns a response. *)
Lemma cycle_returning_run (advs : list Advisor) (w : World Game)
    (proposal : Output) (responses : list Output) :
  let g := game w in
  let n := List.length (invocations w) in
  let asked :=
    ProposalPrompt agent_role g
      :: advisor_prompts g (decision proposal) advs in
  let votes := map vote_of responses in
  invoke_reply n (ProposalPrompt agent_role g) = Returns proposal ->
  returned (S n) g (decision proposal) advs responses ->
  cycle advs w
  = Done votes
      (io_step asked
         (proposal_lines proposal ++ vote_lines advs votes
            ++ [verdict_line votes;
                lit "Total Tokens Used: "
                  ++ cb_total_tokens (invocations w ++ asked);
                lit "Total Cost (USD): $"
                  ++ cb_total_cost (invocations w ++ asked)]) w)
  /\ List.length votes = List.length advs.
Proof.
  intros g n asked votes Hproposal Hpanel.
  split; [| unfold votes; rewrite length_map;
            exact (all_return_length Game invoke_reply _ _ _ _ _ Hpanel)].
  rewrite (decision_cycle_run lower_ucs4 Game invoke_reply
             cb_total_tokens cb_total_cost advs w). cbv zeta.
  fold g n. rewrite Hproposal. unfold printed, sent.
  rewrite io_step_twice. cbn [app].
  rewrite (advisor_loop_all_heard lower_ucs4 Game invoke_reply advs responses).
  - cbn [io_step game invocations]. fold g votes.
    rewrite !io_step_twice. cbn [app]. rewrite app_nil_r, <- !app_assoc.
    reflexivity.
  - cbn [io_step game invocations]. fold g.
    rewrite length_app, Nat.add_1_r. exact Hpanel.
Qed.

(** X9: when the proposal and every advisor evaluation return, the cycle
    returns one vote for each advisor, in the order of the panel.  It has
    printed the five lines of the proposal, one vote line for each advisor,
    one verdict line for these votes and the two lines of the counters, and
    nothing else. *)
Theorem cycle_of_returning_calls (advs : list Advisor) (w : World Game)
    (proposal : Output) (responses : list Output) :
  let g := game w in
  let n := List.length (invocations w) in
  let asked :=
    ProposalPrompt agent_role g
      :: advisor_prompts g (decision proposal) advs in
  let votes := map vote_of responses in
  invoke_reply n (ProposalPrompt agent_role g) = Returns proposal ->
  returned (S n) g (decision proposal) advs responses ->
  cycle advs w
  = Done votes
      (io_step asked
         (proposal_lines proposal ++ vote_lines advs votes
            ++ [verdict_line votes;
                lit "Total Tokens Used: "
                  ++ cb_total_tokens (invocations w ++ asked);
                lit "Total Cost (USD): $"
                  ++ cb_total_cost (invocations w ++ asked)]) w)
  /\ List.length votes = List.length advs.
Proof.
  exact (cycle_returning_run advs w proposal responses).
Qed.

(** Responses for a panel whose evaluations all return. *)
Lemma returning_collaborator (n : nat) (g : Game) (d : str)
    (advs : list Advisor) :
  (forall m prompt, exists response, invoke_reply m prompt = Returns response) ->
  exists responses, returned n g d advs responses.
Proof.
  intros H. revert n. induction advs as [|advisor advs IH]; intros n.
  - exists []. exact I.
  - destruct (H n (AdvisorPrompt advisor g d)) as [response E].
    destruct (IH (S n)) as [responses Hrest].
    exists (response :: responses). split; assumption.
Qed.

(** X10: with a collaborator whose calls all return a response, the
    script runs to its end whatever the game engine does: the turn loop
    returns, the four calls are made, three votes are returned, and the
    output is the five lines of the proposal, the three vote lines, the
    verdict for these votes and the two lines of the counters. *)
Theorem script_completes_when_calls_return (g0 : Game) :
  (forall n prompt, exists response, invoke_reply n prompt = Returns response) ->
  exists votes w proposal,
    script (start g0) = Done votes w
    /\ List.length votes = 3
    /\ invoke_reply 0 (ProposalPrompt agent_role (game w)) = Returns proposal
    /\ List.length (invocations w) = 4
    /\ stdout w
       = proposal_lines proposal ++ vote_lines advisors votes
           ++ [verdict_line votes;
               lit "Total Tokens Used: " ++ cb_total_tokens (invocations w);
               lit "Total Cost (USD): $" ++ cb_total_cost (invocations w)].
Proof.
  intros Hreturns.
  rewrite (main_after_loop lower_ucs4 Game play has_lost invoke_reply
             cb_total_tokens cb_total_cost g0). cbv zeta.
  set (w0 := engine_step _ _ _).
  destruct (Hreturns 0 (ProposalPrompt agent_role (game w0)))
    as [proposal Hproposal].
  destruct (returning_collaborator 1 (game w0) (decision proposal) advisors
              Hreturns) as [responses Hpanel].
  destruct (cycle_returning_run advisors w0 proposal responses
              Hproposal Hpanel) as [Hrun Hlen].
  do 3 eexists. split; [exact Hrun |].
  split; [exact Hlen |]. split; [exact Hproposal |]. split; reflexivity.
Qed.

(** X11: a game that is over when the script starts is not noticed after
    the loop.  The loop plays no turn (and does not ask player 2 once it
    has found that player 1 has lost), and the script goes on to ask for
    a proposal on that game. *)
Theorem lost_game_still_proposed (g0 : Game) :
  nobody_lost has_lost g0 = false ->
  let w := engine_step (test_calls has_lost g0) g0 (start g0) in
  turn_loop play has_lost (S stop_at_round) 0 (start g0) = Done 0 w
  /\ play_calls w = []
  /\ (has_lost player1 g0 = true -> engine_calls w = [HasLost player1])
  /\ script (start g0) = cycle advisors w
  /\ exists asked,
       invocations (world_of (script (start g0)))
       = ProposalPrompt agent_role g0 :: asked.
Proof.
  intros Hlost w.
  assert (Hloop : turn_loop play has_lost (S stop_at_round) 0 (start g0)
                  = Done 0 w).
  { rewrite (turn_loop_step Game play has_lost). cbn [game start].
    now rewrite Hlost. }
  assert (Hscript : script (start g0) = cycle advisors w).
  { unfold main, bind at 1. now rewrite Hloop. }
  split; [exact Hloop |]. split.
  - unfold w. rewrite play_calls_engine_step. unfold test_calls.
    destruct (has_lost player1 g0); reflexivity.
  - split; [| split; [exact Hscript |]].
    + intros H1. unfold w, test_calls. now rewrite H1.
    + rewrite Hscript.
      destruct (cycle_first_call lower_ucs4 Game invoke_reply
                  cb_total_tokens cb_total_cost advisors w) as [asked E].
      exists asked. exact E.
Qed.

End CycleFacts.

Lemma cycle_of_returning_calls_witness :
  exists w,
    decision_cycle Scenario.plain_lower Scenario.all_approve
      Scenario.usage_unknown Scenario.usage_unknown advisors (start 0)
    = Done [true; true; true] w
    /\ List.length (stdout w) = 11.
Proof.
  eexists. split.
  - exact (proj1 (cycle_of_returning_calls Scenario.plain_lower nat
                    Scenario.all_approve Scenario.usage_unknown
                    Scenario.usage_unknown advisors (start 0)
                    (decides "approve")
                    [decides "approve"; decides "approve"; decides "approve"]
                    eq_refl (conj eq_refl (conj eq_refl (conj eq_refl I))))).
  - reflexivity.
Defined.

Lemma script_completes_when_calls_return_witness :
  exists votes w proposal,
    Scenario.run Scenario.all_approve = Done votes w
    /\ List.length votes = 3
    /\ Scenario.all_approve 0 (ProposalPrompt agent_role (game w))
       = Returns proposal
    /\ List.length (invocations w) = 4
    /\ stdout w
       = proposal_lines proposal ++ vote_lines advisors votes
           ++ [verdict_line votes;
               lit "Total Tokens Used: "
                 ++ Scenario.usage_unknown (invocations w);
               lit "Total Cost (USD): $"
                 ++ Scenario.usage_unknown (invocations w)].
Proof.
  apply (script_completes_when_calls_return Scenario.plain_lower nat
           Scenario.count_turn Scenario.nobody_loses
           Scenario.all_approve Scenario.usage_unknown
           Scenario.usage_unknown 0).
  intros n prompt. eexists. reflexivity.
Defined.

(** The game has been played before the script: player 1 is ruined when
    the loop starts. *)
Lemma lost_game_still_proposed_witness :
  turn_loop Scenario.count_turn Scenario.first_turn_ruins 6 0 (start 1)
  = Done 0 (engine_step [HasLost player1] 1 (start 1)).
Proof.
  exact (proj1 (lost_game_still_proposed Scenario.plain_lower nat
                  Scenario.count_turn Scenario.first_turn_ruins
                  Scenario.all_approve Scenario.usage_unknown
                  Scenario.usage_unknown 1 eq_refl)).
Defined.

(** ** The prompt templates *)

Module PromptFacts.
Import PyFormat.

Lemma emit_emit (a b : str) (rest : option Formatting) :
  emit a (emit b rest) = emit (a ++ b) rest.
Proof.
  destruct rest as [[s | key |] |]; cbn; try reflexivity.
  now rewrite app_assoc.
Qed.

(** Text without braces is copied. *)
Lemma format_from_text (kw : kwargs) (p t : str) :
  has_brace p = false ->
  format_from kw None (p ++ t) = emit p (format_from kw None t).
Proof.
  induction p as [|c p IH]; intros Hp.
  - cbn [app]. destruct (format_from kw None t) as [[s | key |] |]; reflexivity.
  - cbn [has_brace existsb] in Hp. apply orb_false_iff in Hp as [Hc Hp].
    apply orb_false_iff in Hc as [Hopen Hclose].
    cbn [app format_from]. rewrite Hopen, Hclose, (IH Hp).
    apply emit_emit.
Qed.

(** Inside a field, the plain characters up to the closing brace are the
    rest of the name. *)
Lemma format_from_name (kw : kwargs) (acc n t : str) :
  forallb plain_char n = true ->
  format_from kw (Some acc) (n ++ 125%N :: t)
  = match field_value (acc ++ n) kw with
    | Some (Formatted v) => emit v (format_from kw None t)
    | other => other
    end.
Proof.
  revert acc. induction n as [|c n IH]; intros acc Hn.
  - cbn [app format_from]. rewrite N.eqb_refl, app_nil_r. reflexivity.
  - cbn [forallb] in Hn. apply andb_true_iff in Hn as [Hc Hn].
    unfold plain_char in Hc.
    apply andb_true_iff in Hc as [Hc Hclose].
    apply andb_true_iff in Hc as [Hsyntax Hopen].
    apply negb_true_iff in Hclose, Hopen, Hsyntax.
    cbn [app format_from]. rewrite Hclose, Hopen, Hsyntax, (IH _ Hn).
    now rewrite <- app_assoc.
Qed.

(** A field of a simple name gives the keyword argument of that name. *)
Lemma format_from_field (kw : kwargs) (n t : str) :
  simple_name n = true ->
  format_from kw None (123%N :: n ++ 125%N :: t)
  = match get n kw with
    | Some v => emit v (format_from kw None t)
    | None => Some (KeyError n)
    end.
Proof.
  intros Hn. destruct n as [|c n]; [discriminate Hn |].
  unfold simple_name in Hn. apply andb_true_iff in Hn as [Hstart Hplain].
  assert (Hc : (c =? 123)%N = false).
  { cbn [forallb] in Hplain. apply andb_true_iff in Hplain as [Hc _].
    unfold plain_char in Hc. apply andb_true_iff in Hc as [Hc _].
    apply andb_true_iff in Hc as [_ Hc]. now apply negb_true_iff in Hc. }
  change (format_from kw None (123%N :: (c :: n) ++ 125%N :: t))
    with (if (c =? 123)%N
          then emit [123%N] (format_from kw None (n ++ 125%N :: t))
          else format_from kw (Some []) ((c :: n) ++ 125%N :: t)).
  rewrite Hc.
  refine (eq_trans (format_from_name kw [] (c :: n) t Hplain) _).
  cbn [app field_value]. rewrite Hstart.
  destruct (get (c :: n) kw); reflexivity.
Qed.

(** On a template of texts without braces and fields of simple names,
    [format] is the substitution of the keyword arguments. *)
Lemma format_assemble (kw : kwargs) (ts ns : list str) :
  forallb (fun p => negb (has_brace p)) ts = true ->
  forallb simple_name ns = true ->
  format (assemble ts ns) kw = Some (fill kw ts ns).
Proof.
  unfold format. revert ns. induction ts as [|t0 ts IH]; intros ns Hts Hns.
  - reflexivity.
  - cbn [forallb] in Hts. apply andb_true_iff in Hts as [Ht0 Hts].
    apply negb_true_iff in Ht0.
    destruct ns as [|n ns]; cbn [assemble fill].
    + rewrite <- (app_nil_r t0) at 1. rewrite (format_from_text kw t0 [] Ht0).
      cbn. now rewrite app_nil_r.
    + cbn [forallb] in Hns. apply andb_true_iff in Hns as [Hn Hns].
      rewrite (format_from_text kw t0 _ Ht0), (format_from_field kw n _ Hn).
      destruct (get n kw) as [v |]; [| reflexivity].
      rewrite (IH ns Hts Hns).
      destruct (fill kw ts ns); reflexivity.
Qed.

(** A substitution raises for a name of the template that is not given,
    and only then. *)
Lemma fill_outcome (kw : kwargs) (ts ns : list str) :
  match fill kw ts ns with
  | Formatted _ =>
      List.length ns < List.length ts ->
      forall key, In key ns -> get key kw <> None
  | KeyError key => In key ns /\ get key kw = None
  | ValueError => False
  end.
Proof.
  revert ns. induction ts as [|t0 ts IH]; intros ns.
  - cbn. intros H. lia.
  - destruct ns as [|n ns]; cbn [fill].
    + intros _ key [].
    + destruct (get n kw) as [v |] eqn:E.
      * specialize (IH ns). destruct (fill kw ts ns) as [s | key |].
        -- intros Hlen key [<- | Hin]; [congruence |].
           apply IH; [cbn [List.length] in Hlen; lia | exact Hin].
        -- destruct IH as [Hin Hnone]. split; [now right | exact Hnone].
        -- exact IH.
      * split; [now left | exact E].
Qed.

Lemma str_eqb_eq (a b : str) : str_eqb a b = true <-> a = b.
Proof.
  revert b. induction a as [|c a IH]; intros [|d b]; cbn [str_eqb];
    try (split; [discriminate | discriminate]).
  - split; reflexivity.
  - rewrite andb_true_iff, N.eqb_eq, IH. split.
    + intros [-> ->]. reflexivity.
    + intros E. injection E as -> ->. split; reflexivity.
Qed.

Lemma listed_all (l l' : list str) :
  forallb (fun k => existsb (str_eqb k) l') l = true ->
  forall key, In key l -> In key l'.
Proof.
  intros H key Hin. rewrite forallb_forall in H.
  specialize (H key Hin). apply existsb_exists in H as [k [Hk E]].
  apply str_eqb_eq in E. now subst k.
Qed.

(** When the names documented for a template are the names of its fields,
    formatting it raises only for a documented name that is not given. *)
Lemma template_placeholders (template : str) (ts ns documented : list str)
    (kw : kwargs) :
  template = assemble ts ns ->
  forallb (fun p => negb (has_brace p)) ts = true ->
  forallb simple_name ns = true ->
  (List.length ns <? List.length ts) = true ->
  forallb (fun k => existsb (str_eqb k) ns) documented = true ->
  forallb (fun k => existsb (str_eqb k) documented) ns = true ->
  match format template kw with
  | Some (Formatted _) => forall key, In key documented -> get key kw <> None
  | Some (KeyError key) => In key documented /\ get key kw = None
  | Some ValueError => False
  | None => False
  end
  /\ ((forall key, In key documented -> get key kw <> None) ->
      exists s, format template kw = Some (Formatted s)).
Proof.
  intros -> Hts Hns Hlen Hdoc Hfields.
  apply Nat.ltb_lt in Hlen.
  pose proof (listed_all _ _ Hdoc) as Hto.
  pose proof (listed_all _ _ Hfields) as Hfrom.
  rewrite (format_assemble kw ts ns Hts Hns).
  pose proof (fill_outcome kw ts ns) as H.
  destruct (fill kw ts ns) as [s | key |].
  - split; [| intros _; now exists s].
    intros key Hin. apply (H Hlen), Hto, Hin.
  - destruct H as [Hin Hnone]. split.
    + split; [apply Hfrom, Hin | exact Hnone].
    + intros Hgiven. now destruct (Hgiven key (Hfrom key Hin)).
  - contradiction.
Qed.

(** X12: the advisor prompt is the text of the template with each of its
    eight fields replaced by the value given at the call: the name, the
    strategy, the proposed action, the bank, the board, the roads, the
    properties, and the strategy again.  The formatting never raises, and
    the values are inserted as they are: braces in them are not fields. *)
Theorem advisor_context_inserts :
  exists p0 p1 p2 p3 p4 p5 p6 p7 p8,
    generate_advisor_prompt_template
    = p0 ++ field "advisor_name" ++ p1 ++ field "advisor_strategy"
        ++ p2 ++ field "proposed_action" ++ p3 ++ field "initial_bank"
        ++ p4 ++ field "initial_board" ++ p5 ++ field "initial_roads"
        ++ p6 ++ field "initial_properties" ++ p7
        ++ field "advisor_strategy" ++ p8
    /\ forallb (fun p => negb (has_brace p)) [p0; p1; p2; p3; p4; p5; p6; p7; p8]
       = true
    /\ forall advisor bank board roads properties action,
         advisor_context advisor bank board roads properties action
         = Some (Formatted
                   (p0 ++ name advisor ++ p1 ++ strategy advisor
                      ++ p2 ++ action ++ p3 ++ bank
                      ++ p4 ++ board ++ p5 ++ roads
                      ++ p6 ++ properties ++ p7
                      ++ strategy advisor ++ p8)).
Proof.
  pose (ps := texts generate_advisor_prompt_template).
  exists (nth 0 ps []), (nth 1 ps []), (nth 2 ps []), (nth 3 ps []),
    (nth 4 ps []), (nth 5 ps []), (nth 6 ps []), (nth 7 ps []), (nth 8 ps []).
  split; [vm_compute; reflexivity |]. split; [vm_compute; reflexivity |].
  intros advisor bank board roads properties action.
  vm_compute. reflexivity.
Qed.

(** X13: the docstring of [generate_advisor_prompt_template] lists the
    placeholders of the template: formatting succeeds exactly when each
    of the seven names listed is given, and otherwise raises [KeyError]
    for one of them that is missing; it never raises [ValueError]. *)
Theorem advisor_template_placeholders (kw : kwargs) :
  match format generate_advisor_prompt_template kw with
  | Some (Formatted _) =>
      forall key, In key advisor_placeholders -> get key kw <> None
  | Some (KeyError key) => In key advisor_placeholders /\ get key kw = None
  | Some ValueError => False
  | None => False
  end
  /\ ((forall key, In key advisor_placeholders -> get key kw <> None) ->
      exists s, format generate_advisor_prompt_template kw = Some (Formatted s)).
Proof.
  apply (template_placeholders generate_advisor_prompt_template
           (texts generate_advisor_prompt_template)
           (names generate_advisor_prompt_template)
           advisor_placeholders kw);
    vm_compute; reflexivity.
Qed.

(** X14: the text sent for the proposal is a dollar sign, the template of
    [prompt_template] with its five fields replaced by "Player 1" and by
    the texts of the bank, the board, the roads and the properties, then
    ". player_state is $" and the text of the players' state.  The
    formatting never raises, and the values are inserted as they are. *)
Theorem context_inserts :
  exists p0 p1 p2 p3 p4 p5,
    prompt_template
    = p0 ++ field "agent_role" ++ p1 ++ field "initial_bank"
        ++ p2 ++ field "initial_board" ++ p3 ++ field "initial_roads"
        ++ p4 ++ field "initial_properties" ++ p5
    /\ forallb (fun p => negb (has_brace p)) [p0; p1; p2; p3; p4; p5] = true
    /\ forall bank board roads properties player_state,
         exists formatted,
           context bank board roads properties = Some (Formatted formatted)
           /\ formatted
              = p0 ++ lit "Player 1" ++ p1 ++ bank ++ p2 ++ board
                  ++ p3 ++ roads ++ p4 ++ properties ++ p5
           /\ proposal_prompt_text formatted player_state
              = lit "$" ++ formatted ++ lit ". player_state is $"
                  ++ player_state.
Proof.
  pose (ps := texts prompt_template).
  exists (nth 0 ps []), (nth 1 ps []), (nth 2 ps []), (nth 3 ps []),
    (nth 4 ps []), (nth 5 ps []).
  split; [vm_compute; reflexivity |]. split; [vm_compute; reflexivity |].
  intros bank board roads properties player_state.
  eexists. split; [vm_compute; reflexivity |].
  split; [vm_compute; reflexivity | reflexivity].
Qed.

(** X15: the docstring of [prompt_template] lists the placeholders of the
    template: formatting succeeds exactly when each of the five names
    listed is given, and otherwise raises [KeyError] for one of them that
    is missing; it never raises [ValueError]. *)
Theorem agent_template_placeholders (kw : kwargs) :
  match format prompt_template kw with
  | Some (Formatted _) =>
      forall key, In key agent_placeholders -> get key kw <> None
  | Some (KeyError key) => In key agent_placeholders /\ get key kw = None
  | Some ValueError => False
  | None => False
  end
  /\ ((forall key, In key agent_placeholders -> get key kw <> None) ->
      exists s, format prompt_template kw = Some (Formatted s)).
Proof.
  apply (template_placeholders prompt_template
           (texts prompt_template) (names prompt_template)
           agent_placeholders kw);
    vm_compute; reflexivity.
Qed.

End PromptFacts.

(** ** The classifier on the advisor prompt *)

Section Echo.
Variable lower_ucs4 : str -> nat -> N -> str.

Local Abbreviation parse := (parse_advisor_response lower_ucs4).

(** A text that holds "approve" in one of its parts is an approval. *)
Lemma approve_inside (r : str) (c0 n c1 st c2 rest a b : str) :
  c2 = a ++ lit "approve" ++ b ->
  parse {| reasoning := r; decision := c0 ++ n ++ c1 ++ st ++ c2 ++ rest |}
  = true.
Proof.
  intros ->.
  destruct (PyStrFacts.lower_around_ascii lower_ucs4
              (c0 ++ n ++ c1 ++ st ++ a) (lit "approve") (b ++ rest))
    as [pre' [suf' E]].
  { unfold PyStr.is_ascii. repeat constructor. }
  apply (parse_of_lowered_token lower_ucs4 _ (lit "approve") pre' suf').
  - left. reflexivity.
  - cbn [decision].
    change (map PyStr.ascii_lower (lit "approve")) with (lit "approve") in E.
    rewrite <- E. f_equal. now rewrite <- !app_assoc.
Qed.

(** X16: the advisor prompt is itself an approval for the classifier: it
    asks "whether to approve or reject" in its fixed text, so a response
    whose decision repeats the prompt is counted as an approving vote,
    whatever the advisor, the game and the proposed action are. *)
Theorem echoed_prompt_approves (advisor : Advisor)
    (bank board roads properties action reasoning' : str) :
  exists prompt,
    advisor_context advisor bank board roads properties action
    = Some (PyFormat.Formatted prompt)
    /\ parse {| reasoning := reasoning'; decision := prompt |} = true.
Proof.
  pose (ps := PyFormat.texts generate_advisor_prompt_template).
  exists (nth 0 ps [] ++ name advisor ++ nth 1 ps [] ++ strategy advisor
            ++ nth 2 ps []
            ++ (action ++ nth 3 ps [] ++ bank ++ nth 4 ps [] ++ board
                  ++ nth 5 ps [] ++ roads ++ nth 6 ps [] ++ properties
                  ++ nth 7 ps [] ++ strategy advisor ++ nth 8 ps [])).
  split; [vm_compute; reflexivity |].
  apply (approve_inside reasoning' (nth 0 ps []) (name advisor) (nth 1 ps [])
           (strategy advisor) (nth 2 ps []) _
           (firstn 118 (nth 2 ps [])) (skipn 125 (nth 2 ps []))).
  vm_compute. reflexivity.
Qed.

End Echo.
